(** * Agricultural Weather Advisor front end: a shallow embedding

    The development follows the three JavaScript sources of the browser
    client:

    - [services/api.js]: the axios instance, the request builders and the
      [apiUtils] helpers ([createVoiceFormData], [validateAudioBlob]);
    - [hooks/useDeepgramVoiceRecording.js]: the recording hook, a small
      event-driven state machine over React state, refs and the platform's
      [MediaRecorder];
    - [App.jsx] ([ChatInterface]): the chat view with [handleSendMessage],
      [handleVoiceProcessingResult] and [processIntelligentChatResponse].

    JavaScript strings are [string]s holding UTF-8 bytes; a [Blob] is its
    bytes and its declared type; React state is a record and every setter
    is a state transformer, handlers being sequences of setters.  What the
    platform or the backend decides (clock readings, recorder events, HTTP
    outcomes) is an explicit argument of the handler that consumes it.
    Console output is diagnostic only and is left out. *)

From Stdlib Require Import List String Ascii Bool ZArith QArith Lia.
From Stdlib Require Import DecimalString.
Import ListNotations.

Local Open Scope string_scope.
Local Open Scope Z_scope.

(** ** JavaScript values used by the client *)

Module Js.

(** [Boolean(s)] for a string: only the empty string is falsy. *)
Definition truthy_string (s : string) : bool :=
  match s with
  | EmptyString => false
  | String _ _ => true
  end.

(** [Boolean(v)] for a property that is either absent ([undefined] or
    [null]) or a string. *)
Definition truthy_opt_string (v : option string) : bool :=
  match v with
  | None => false
  | Some s => truthy_string s
  end.

(** [Boolean(v)] for a property that is absent or a boolean. *)
Definition truthy_opt_bool (v : option bool) : bool :=
  match v with
  | None => false
  | Some b => b
  end.

(** [Boolean(v)] for a property that is absent or an object. *)
Definition truthy_opt_obj {A : Type} (v : option A) : bool :=
  match v with
  | None => false
  | Some _ => true
  end.

(** [a || b] where [a] is an absent-or-string property and [b] a string. *)
Definition or_string (a : option string) (b : string) : string :=
  match a with
  | Some s => if truthy_string s then s else b
  | None => b
  end.

(** [s.includes(search)]. *)
Fixpoint includes (s search : string) : bool :=
  if String.prefix search s then true
  else match s with
       | EmptyString => false
       | String _ rest => includes rest search
       end.

(** [a !== b] on absent-or-string values.  [None] stands for both
    [undefined] and [null]; the client only evaluates the comparison
    behind a truthiness test of [a], so with [a] a string. *)
Definition strict_neq (a b : option string) : bool :=
  match a, b with
  | None, None => false
  | Some x, Some y => negb (String.eqb x y)
  | _, _ => true
  end.

(** Decimal rendering of a non-negative integer, as [String(n)] does. *)
Definition string_of_nonneg (n : Z) : string :=
  NilZero.string_of_uint (N.to_uint (Z.to_N n)).

(** [(size / 1024 / 1024).toFixed(1)] for an integer byte count.  The two
    divisions by a power of two are exact on doubles, so the value is the
    rational [size / 2^20]; [toFixed(1)] picks the integer [n] with
    [n / 10] closest to it, the larger one on a tie. *)
Definition tenths_of_MiB (size : Z) : Z :=
  (20 * size + 1048576) / 2097152.

Definition toFixed1_MiB (size : Z) : string :=
  let n := tenths_of_MiB size in
  string_of_nonneg (n / 10) ++ "." ++ string_of_nonneg (n mod 10).

(** A string given by its bytes. *)
Definition of_bytes (l : list nat) : string :=
  fold_right (fun n s => String (ascii_of_nat n) s) EmptyString l.

(** The UTF-8 encodings of ECMAScript's WhiteSpace and LineTerminator
    code points: TAB, LF, VT, FF, CR, SP, U+00A0, U+1680, U+2000 to
    U+200A, U+2028, U+2029, U+202F, U+205F, U+3000 and U+FEFF. *)
Definition whitespace : list string :=
  map of_bytes
    [ [9]; [10]; [11]; [12]; [13]; [32]; [194; 160]; [225; 154; 128];
      [226; 128; 128]; [226; 128; 129]; [226; 128; 130]; [226; 128; 131];
      [226; 128; 132]; [226; 128; 133]; [226; 128; 134]; [226; 128; 135];
      [226; 128; 136]; [226; 128; 137]; [226; 128; 138]; [226; 128; 168];
      [226; 128; 169]; [226; 128; 175]; [226; 129; 159]; [227; 128; 128];
      [239; 187; 191] ]%nat.

(** Removes one leading token of [toks] from [s], if there is one. *)
Fixpoint strip_token (toks : list string) (s : string) : option string :=
  match toks with
  | [] => None
  | t :: rest =>
    if String.prefix t s
    then Some (String.substring (String.length t)
                 (String.length s - String.length t) s)
    else strip_token rest s
  end.

Fixpoint strip_tokens (fuel : nat) (toks : list string) (s : string)
  : string :=
  match fuel with
  | O => s
  | S fuel' =>
    match strip_token toks s with
    | Some s' => strip_tokens fuel' toks s'
    | None => s
    end
  end.

Definition rev_string (s : string) : string :=
  string_of_list_ascii (rev (list_ascii_of_string s)).

Definition trimStart (s : string) : string :=
  strip_tokens (String.length s) whitespace s.

Definition trimEnd (s : string) : string :=
  rev_string
    (strip_tokens (String.length s) (map rev_string whitespace)
       (rev_string s)).

(** [s.trim()]. *)
Definition trim (s : string) : string := trimEnd (trimStart s).

End Js.

(** ** [services/api.js] *)

Module Api.

(** A [Blob]: its bytes and its declared MIME type. *)
Record Blob := mkBlob {
  blob_data : list Byte.byte;
  blob_type : string
}.

Definition size (b : Blob) : Z := Z.of_nat (List.length (blob_data b)).

(** [new Blob(parts, { type })]. *)
Definition newBlob (parts : list Blob) (type : string) : Blob :=
  mkBlob (List.concat (map blob_data parts)) type.

(** An entry of a [FormData]: a plain field or a file part. *)
Inductive FormValue :=
| FieldValue (value : string)
| FileValue (file : Blob) (filename : string).

Definition FormData := list (string * FormValue).

(** [formData.append(name, value)] adds at the end and keeps duplicates. *)
Definition append (fd : FormData) (name : string) (v : FormValue) : FormData :=
  (fd ++ [(name, v)])%list.

Definition has_field (fd : FormData) (name : string) : bool :=
  existsb (fun e => String.eqb (fst e) name) fd.

Definition get_all (fd : FormData) (name : string) : list FormValue :=
  map snd (filter (fun e => String.eqb (fst e) name) fd).

(** The [options] argument of [createVoiceFormData]. *)
Record VoiceOptions := mkVoiceOptions {
  opt_session_id : option string;
  opt_language : option string
}.

(** [options = {}]. *)
Definition no_options : VoiceOptions := mkVoiceOptions None None.

Definition createVoiceFormData (audioBlob : Blob) (options : VoiceOptions)
  : FormData :=
  let formData : FormData := [] in
  let filename :=
    "recording." ++
    (if Js.includes (blob_type audioBlob) "webm" then "webm" else "wav") in
  let formData := append formData "audio" (FileValue audioBlob filename) in
  let formData :=
    if Js.truthy_opt_string (opt_session_id options)
    then append formData "session_id"
           (FieldValue (match opt_session_id options with
                        | Some s => s
                        | None => ""
                        end))
    else formData in
  append formData "language"
    (FieldValue (Js.or_string (opt_language options) "ja")).

(** The object returned by [validateAudioBlob]. *)
Record ValidationResult := mkValidation {
  valid : bool;
  warnings : list string;
  errors : list string
}.

Definition set_valid (v : bool) (r : ValidationResult) :=
  mkValidation v (warnings r) (errors r).
Definition push_warning (w : string) (r : ValidationResult) :=
  mkValidation (valid r) (warnings r ++ [w])%list (errors r).
Definition push_error (e : string) (r : ValidationResult) :=
  mkValidation (valid r) (warnings r) (errors r ++ [e])%list.

Definition maxSize : Z := 500 * 1024 * 1024.

Definition supportedTypes : list string :=
  ["audio/webm"; "audio/wav"; "audio/mp3"; "audio/ogg"].

Definition emptyAudioError : string := "Audio data is empty".
Definition tooLargeError (sz : Z) : string :=
  "Audio file too large: " ++ Js.toFixed1_MiB sz ++ "MB (max: 500MB)".
Definition smallWarning : string :=
  "Audio file very small - may not contain speech".
Definition typeWarning (type : string) : string :=
  "Audio type " ++ type ++ " may not be optimal".

(** [validateAudioBlob(audioBlob)]; [None] is a [null] or [undefined]
    argument, caught by the [!audioBlob] test. *)
Definition validateAudioBlob (audioBlob : option Blob) : ValidationResult :=
  let result := mkValidation true [] [] in
  match audioBlob with
  | None => push_error emptyAudioError (set_valid false result)
  | Some blob =>
    if size blob =? 0
    then push_error emptyAudioError (set_valid false result)
    else
      let result :=
        if size blob >? maxSize
        then push_error (tooLargeError (size blob)) (set_valid false result)
        else result in
      let result :=
        if size blob <? 1024
        then push_warning smallWarning result
        else result in
      let result :=
        if negb (existsb (fun type => Js.includes (blob_type blob) type)
                   supportedTypes)
        then push_warning (typeWarning (blob_type blob)) result
        else result in
      result
  end.

(** *** The axios instance and the requests the client issues *)

Definition API_BASE_URL : string := "http://localhost:5000".

(** The configuration given to [axios.create]; [timeout] is in
    milliseconds. *)
Record AxiosConfig := mkAxiosConfig {
  baseURL : string;
  timeout : Z;
  headers : list (string * string)
}.

Definition api : AxiosConfig :=
  {| baseURL := API_BASE_URL;
     timeout := 60000;
     headers := [("Content-Type", "application/json")] |}.

Inductive HttpMethod := GET | POST.

(** A request goes through an axios instance, whose configuration it
    inherits, or through the platform's [fetch], called here with a
    method and a body only. *)
Inductive Transport :=
| ViaAxios (cfg : AxiosConfig)
| ViaFetch.

Inductive Body :=
| NoBody
| JsonBody (members : list (string * option string))
| MultipartBody (fd : FormData).

Record Request := mkRequest {
  req_transport : Transport;
  req_method : HttpMethod;
  req_url : string;
  req_params : list (string * string);
  req_body : Body
}.

(** The time after which the client gives up on a request: the axios
    instance's [timeout]; a [fetch] call carries none. *)
Definition request_timeout (r : Request) : option Z :=
  match req_transport r with
  | ViaAxios cfg => Some (timeout cfg)
  | ViaFetch => None
  end.

Definition api_get (url : string) (params : list (string * string))
  : Request :=
  mkRequest (ViaAxios api) GET url params NoBody.

Definition api_post (url : string) (members : list (string * option string))
  : Request :=
  mkRequest (ViaAxios api) POST url [] (JsonBody members).

Module chatAPI.

(** The request of [sendMessage({ message, session_id, language })]. *)
Definition sendMessage (message : string) (session_id : option string)
    (language : string) : Request :=
  api_post "/api/chat/"
    [("message", Some (Js.trim message));
     ("session_id", session_id);
     ("language", Some language)].

(** The request of [processVoiceInput(formData)]. *)
Definition processVoiceInput (formData : FormData) : Request :=
  mkRequest ViaFetch POST (API_BASE_URL ++ "/api/chat/voice/process") []
    (MultipartBody formData).

Definition getVoiceStatus : Request :=
  api_get "/api/chat/voice/status" [].

Definition analyzeQuery (message : string) : Request :=
  api_post "/api/chat/analyze" [("message", Some (Js.trim message))].

End chatAPI.

Module weatherAPI.

Definition getCurrentWeather (city country : string) : Request :=
  api_get "/api/weather/current" [("city", city); ("country", country)].

Definition getForecast (city country : string) (days : Z) : Request :=
  api_get "/api/weather/forecast"
    [("city", city); ("country", country);
     ("days", Js.string_of_nonneg days)].

Definition searchLocations (query : string) : Request :=
  api_get "/api/weather/locations/search"
    [("query", query); ("limit", "5")].

End weatherAPI.

Module agricultureAPI.

Definition getCropRecommendations (city country : string) : Request :=
  api_get "/api/agriculture/crops/recommendations"
    [("city", city); ("country", country)].

Definition getPestRiskAssessment (city country cropType : string)
  : Request :=
  api_get "/api/agriculture/pest/risk-assessment"
    [("city", city); ("country", country); ("crop_type", cropType)].

Definition getSeasonalAdvice (city country : string) : Request :=
  api_get "/api/agriculture/seasonal/advice"
    [("city", city); ("country", country)].

End agricultureAPI.

Definition checkHealth : Request := api_get "/" [].
Definition getApiDocs : Request := api_get "/api" [].

(** The JSON calls of the module: every request it sends through the
    axios instance. *)
Inductive JsonCall : Request -> Prop :=
| call_sendMessage m s l : JsonCall (chatAPI.sendMessage m s l)
| call_getVoiceStatus : JsonCall chatAPI.getVoiceStatus
| call_analyzeQuery m : JsonCall (chatAPI.analyzeQuery m)
| call_getCurrentWeather c k : JsonCall (weatherAPI.getCurrentWeather c k)
| call_getForecast c k d : JsonCall (weatherAPI.getForecast c k d)
| call_searchLocations q : JsonCall (weatherAPI.searchLocations q)
| call_getCropRecommendations c k :
    JsonCall (agricultureAPI.getCropRecommendations c k)
| call_getPestRiskAssessment c k t :
    JsonCall (agricultureAPI.getPestRiskAssessment c k t)
| call_getSeasonalAdvice c k :
    JsonCall (agricultureAPI.getSeasonalAdvice c k)
| call_checkHealth : JsonCall checkHealth
| call_getApiDocs : JsonCall getApiDocs.

End Api.

(** ** The backend's JSON payloads

    The Flask backend is an external collaborator.  Its responses are taken
    in the shape its endpoints document: a field the client only tests for
    presence is an [option], a payload the client forwards without looking
    inside is a [JsObject]. *)

Module Backend.

#[local] Unset Elimination Schemes.
Inductive Json :=
| JNull
| JBool (b : bool)
| JNum (q : Q)
| JStr (s : string)
| JArr (items : list Json)
| JObj (members : list (string * Json)).
#[local] Set Elimination Schemes.

(** An object payload; as a JavaScript value it is always truthy. *)
Definition JsObject := list (string * Json).

Record Location := mkLocation {
  city : string;
  country : string
}.

Record LocationInfo := mkLocationInfo {
  location_changed : option bool;
  current_location : Location;
  li_confidence : Q;
  extracted_location : option JsObject
}.

(** The body of a [POST /api/chat/] response, and the object
    [handleVoiceProcessingResult] rebuilds from a voice result. *)
Record ChatResponse := mkChatResponse {
  success : option bool;
  response : string;
  session_id : option string;
  location_info : option LocationInfo;
  weather : option JsObject;
  crop_recommendations : option JsObject;
  query_intelligence : option JsObject;
  resp_error : option string
}.

Record Transcription := mkTranscription {
  tr_transcript : string;
  tr_confidence : Q;
  tr_processing_time : Q;
  tr_word_count : Z
}.

Record InnerChat := mkInnerChat {
  ic_success : option bool;
  ic_response : string
}.

(** The body of a [POST /api/chat/voice/process] response. *)
Record VoiceResult := mkVoiceResult {
  vr_success : option bool;
  vr_error : option string;
  transcription : Transcription;
  chat_response : InnerChat;
  vr_session_id : option string;
  vr_location_info : option LocationInfo;
  vr_weather : option JsObject;
  vr_crop_recommendations : option JsObject;
  vr_query_intelligence : option JsObject
}.

End Backend.

(** ** [hooks/useDeepgramVoiceRecording.js] *)

Module Hook.

Import Api Backend.

(** [MediaRecorder.state]; the hook never pauses a recorder. *)
Inductive RecordingState := inactive | recording.

(** The recorder object: the MIME type it was created with (which the
    [onstop] closure also captures), its state, and whether its [stop]
    event is queued and not yet dispatched. *)
Record MediaRecorder := mkRecorder {
  mimeType : string;
  state : RecordingState;
  stopQueued : bool
}.

(** A [MediaStream], identified by the platform. *)
Record MediaStream := mkStream { stream_id : nat }.

(** The hook instance: React state, the three refs, and the part of the
    world the hook acts on (which streams still have live tracks, which
    forms were posted to the voice endpoint). *)
Record HookState := mkHook {
  isRecording : bool;
  isProcessing : bool;
  transcript : string;
  confidence : Q;
  error : option string;
  isSupported : bool;
  mediaRecorderRef : option MediaRecorder;
  audioChunksRef : list Blob;
  streamRef : option MediaStream;
  liveStreams : list nat;
  posted : list FormData
}.

Definition Update := HookState -> HookState.

(** Statements run in order. *)
Definition seq (us : list Update) : Update :=
  fun h => fold_left (fun h' u => u h') us h.

Definition skip : Update := fun h => h.

Definition when (b : bool) (u : Update) : Update :=
  if b then u else skip.

Definition setIsRecording (v : bool) : Update := fun h =>
  mkHook v (isProcessing h) (transcript h) (confidence h) (error h)
    (isSupported h) (mediaRecorderRef h) (audioChunksRef h) (streamRef h)
    (liveStreams h) (posted h).
Definition setIsProcessing (v : bool) : Update := fun h =>
  mkHook (isRecording h) v (transcript h) (confidence h) (error h)
    (isSupported h) (mediaRecorderRef h) (audioChunksRef h) (streamRef h)
    (liveStreams h) (posted h).
Definition setTranscript (v : string) : Update := fun h =>
  mkHook (isRecording h) (isProcessing h) v (confidence h) (error h)
    (isSupported h) (mediaRecorderRef h) (audioChunksRef h) (streamRef h)
    (liveStreams h) (posted h).
Definition setConfidence (v : Q) : Update := fun h =>
  mkHook (isRecording h) (isProcessing h) (transcript h) v (error h)
    (isSupported h) (mediaRecorderRef h) (audioChunksRef h) (streamRef h)
    (liveStreams h) (posted h).
Definition setError (v : option string) : Update := fun h =>
  mkHook (isRecording h) (isProcessing h) (transcript h) (confidence h) v
    (isSupported h) (mediaRecorderRef h) (audioChunksRef h) (streamRef h)
    (liveStreams h) (posted h).
Definition setMediaRecorderRef (v : option MediaRecorder) : Update := fun h =>
  mkHook (isRecording h) (isProcessing h) (transcript h) (confidence h)
    (error h) (isSupported h) v (audioChunksRef h) (streamRef h)
    (liveStreams h) (posted h).
Definition setAudioChunksRef (v : list Blob) : Update := fun h =>
  mkHook (isRecording h) (isProcessing h) (transcript h) (confidence h)
    (error h) (isSupported h) (mediaRecorderRef h) v (streamRef h)
    (liveStreams h) (posted h).
Definition setStreamRef (v : option MediaStream) : Update := fun h =>
  mkHook (isRecording h) (isProcessing h) (transcript h) (confidence h)
    (error h) (isSupported h) (mediaRecorderRef h) (audioChunksRef h) v
    (liveStreams h) (posted h).
Definition setLiveStreams (v : list nat) : Update := fun h =>
  mkHook (isRecording h) (isProcessing h) (transcript h) (confidence h)
    (error h) (isSupported h) (mediaRecorderRef h) (audioChunksRef h)
    (streamRef h) v (posted h).
Definition setPosted (v : list FormData) : Update := fun h =>
  mkHook (isRecording h) (isProcessing h) (transcript h) (confidence h)
    (error h) (isSupported h) (mediaRecorderRef h) (audioChunksRef h)
    (streamRef h) (liveStreams h) v.

(** The hook as first rendered on a platform that supports recording. *)
Definition initial : HookState :=
  mkHook false false "" 0%Q None true None [] None [] [].

(** *** Platform operations *)

(** [stream.getTracks().forEach((track) => track.stop())]. *)
Definition stopTracks (s : MediaStream) : Update := fun h =>
  setLiveStreams
    (filter (fun i => negb (Nat.eqb i (stream_id s))) (liveStreams h)) h.

(** [recorder.stop()]: nothing on an inactive recorder; otherwise the
    recorder becomes inactive and the platform queues a last
    [dataavailable] event followed by the [stop] event. *)
Definition MediaRecorder_stop (r : MediaRecorder) : MediaRecorder :=
  match state r with
  | inactive => r
  | recording => mkRecorder (mimeType r) inactive true
  end.

(** [mediaRecorderRef.current.stop()]. *)
Definition stopCurrentRecorder : Update := fun h =>
  match mediaRecorderRef h with
  | Some r => setMediaRecorderRef (Some (MediaRecorder_stop r)) h
  | None => h
  end.

(** [fetch(".../api/chat/voice/process", { method: "POST", body })]. *)
Definition fetchVoiceProcess (formData : FormData) : Update := fun h =>
  setPosted (posted h ++ [formData])%list h.

(** *** The recorder's event handlers *)

(** [mediaRecorder.ondataavailable]. *)
Definition ondataavailable (data : Blob) : Update := fun h =>
  when (size data >? 0)
    (setAudioChunksRef (audioChunksRef h ++ [data])%list) h.

Definition emptyRecordingError : string :=
  "録音データが空です。もう一度お試しください".

(** The form [processAudioWithBackend] builds. *)
Definition processAudioFormData (audioBlob : Blob) : FormData :=
  let formData : FormData := [] in
  let formData :=
    Api.append formData "audio" (FileValue audioBlob "recording.webm") in
  Api.append formData "language" (FieldValue "ja").

(** [processAudioWithBackend(audioBlob)] up to its [await fetch(...)]. *)
Definition processAudioWithBackend (audioBlob : Blob) : Update :=
  fetchVoiceProcess (processAudioFormData audioBlob).

(** What the pending [fetch] and [response.json()] come back with. *)
Inductive FetchOutcome :=
| NetworkError (message : string)
| HttpStatus (status : Z)
| Ok (result : VoiceResult).

Definition processingError (message : string) : string :=
  "音声処理エラー: " ++ message.

(** [processAudioWithBackend] from the point where the [fetch] settles.
    The second component is the result handed to [window.deepgramResult],
    when that global is installed. *)
Definition processAudioWithBackend_settle (handlerInstalled : bool)
    (outcome : FetchOutcome) : HookState -> HookState * option VoiceResult :=
  fun h =>
  let finally (h' : HookState) := setIsProcessing false h' in
  match outcome with
  | NetworkError message =>
    (finally (setError (Some (processingError message)) h), None)
  | HttpStatus status =>
    (finally
       (setError
          (Some (processingError
                   ("HTTP error! status: " ++ Js.string_of_nonneg status)))
          h),
     None)
  | Ok result =>
    if Js.truthy_opt_bool (vr_success result)
    then
      (finally
         (seq [setTranscript (tr_transcript (transcription result));
               setConfidence (tr_confidence (transcription result))] h),
       if handlerInstalled then Some result else None)
    else
      (finally
         (setError
            (Some (processingError
                     (Js.or_string (vr_error result)
                        "音声処理に失敗しました")))
            h),
       None)
  end.

(** [mediaRecorder.onstop], for a recorder created with [mime], up to the
    [await] inside [processAudioWithBackend]. *)
Definition onstop (mime : string) : Update := fun h =>
  let h := seq [setIsRecording false; setIsProcessing true] h in
  let h :=
    match streamRef h with
    | Some s => seq [stopTracks s; setStreamRef None] h
    | None => h
    end in
  let audioBlob := newBlob (audioChunksRef h) mime in
  if size audioBlob =? 0
  then seq [setError (Some emptyRecordingError); setIsProcessing false] h
  else processAudioWithBackend audioBlob h.

(** The platform dispatching the events queued by [stop()]: the last
    [dataavailable], carrying what was captured since the previous one,
    then [stop].  Nothing happens unless a stop is queued. *)
Definition dispatchStop (final : Blob) : Update := fun h =>
  match mediaRecorderRef h with
  | Some r =>
    if stopQueued r
    then seq [setMediaRecorderRef
                (Some (mkRecorder (mimeType r) (state r) false));
              ondataavailable final;
              onstop (mimeType r)] h
    else h
  | None => h
  end.

(** [mediaRecorder.onerror]. *)
Definition onerror (message : option string) : Update :=
  seq [setError (Some ("録音エラー: " ++ Js.or_string message "不明なエラー"));
       setIsRecording false;
       setIsProcessing false].

(** *** The control functions

    A control function is a closure of the render that created it: the
    React state it reads ([isSupported], [isRecording], [isProcessing])
    is that render's, passed as [rendered]; refs are read from the
    current state. *)

(** How [navigator.mediaDevices.getUserMedia] settles. *)
Inductive UserMedia :=
| Granted (stream : MediaStream)
| Refused (name : string).

Definition startErrorMessage (name : string) : string :=
  if String.eqb name "NotAllowedError"
  then "マイクへのアクセスが拒否されました。ブラウザの設定を確認してください"
  else if String.eqb name "NotFoundError"
  then "マイクが見つかりません。マイクが接続されているか確認してください"
  else if String.eqb name "NotSupportedError"
  then "このブラウザでは録音がサポートされていません"
  else "録音開始に失敗しました".

(** The [catch] block of [startRecording]. *)
Definition startRecording_catch (name : string) : Update :=
  seq [setError (Some (startErrorMessage name)); setIsRecording false].

Definition selectMimeType (isTypeSupported : string -> bool) : string :=
  if isTypeSupported "audio/webm;codecs=opus" then "audio/webm;codecs=opus"
  else if isTypeSupported "audio/wav" then "audio/wav"
  else "audio/webm".

(** [recorder.start(100)] on the recorder just stored in the ref. *)
Definition startCurrentRecorder : Update := fun h =>
  match mediaRecorderRef h with
  | Some r =>
    setMediaRecorderRef (Some (mkRecorder (mimeType r) recording false)) h
  | None => h
  end.

(** [startRecording()].  [new MediaRecorder] throws [NotSupportedError]
    for a MIME type the platform cannot record. *)
Definition startRecording (rendered : HookState)
    (isTypeSupported : string -> bool) (media : UserMedia) : Update :=
  if negb (isSupported rendered) || isRecording rendered
     || isProcessing rendered
  then skip
  else fun h =>
    let h := seq [setError None; setTranscript ""; setConfidence 0%Q] h in
    match media with
    | Refused name => startRecording_catch name h
    | Granted stream =>
      let h :=
        seq [setLiveStreams (liveStreams h ++ [stream_id stream])%list;
             setStreamRef (Some stream)] h in
      let mime := selectMimeType isTypeSupported in
      if isTypeSupported mime
      then seq [setMediaRecorderRef (Some (mkRecorder mime inactive false));
                setAudioChunksRef [];
                startCurrentRecorder;
                setIsRecording true] h
      else startRecording_catch "NotSupportedError" h
    end.

(** [stopRecording()]. *)
Definition stopRecording (rendered : HookState) : Update := fun h =>
  if negb (isRecording rendered)
     || negb (Js.truthy_opt_obj (mediaRecorderRef h))
  then h
  else stopCurrentRecorder h.

(** [cancelRecording()]. *)
Definition cancelRecording (rendered : HookState) : Update := fun h =>
  let h :=
    when (Js.truthy_opt_obj (mediaRecorderRef h) && isRecording rendered)
      stopCurrentRecorder h in
  let h :=
    match streamRef h with
    | Some s => seq [stopTracks s; setStreamRef None] h
    | None => h
    end in
  seq [setIsRecording false;
       setIsProcessing false;
       setTranscript "";
       setConfidence 0%Q;
       setError None;
       setAudioChunksRef []] h.

(** [resetTranscript()]. *)
Definition resetTranscript : Update :=
  seq [setTranscript ""; setConfidence 0%Q; setError None].

(** The controller is idle when it is neither recording nor processing. *)
Definition idle (h : HookState) : Prop :=
  isRecording h = false /\ isProcessing h = false.

End Hook.

(** ** [App.jsx]: the chat view [ChatInterface] *)

Module Chat.

Import Backend.

Inductive MessageType := user | assistant | system | location_change | error.

(** A message's [content]: a plain string, or the bilingual pair. *)
Inductive Content :=
| Plain (text : string)
| Bilingual (japanese english : string).

Record VoiceMetadata := mkVoiceMetadata {
  vm_confidence : Q;
  vm_processing_time : Q;
  vm_word_count : Z
}.

(** A chat message.  [id] is a clock reading plus an offset of 0, 0.5 or
    1; the properties a given kind of message does not carry are
    [None]. *)
Record Message := mkMessage {
  id : Q;
  type : MessageType;
  content : Content;
  timestamp : Z;
  voice_metadata : option VoiceMetadata;
  location_data : option JsObject;
  msg_weather : option JsObject;
  recommendations : option JsObject;
  location : option Location;
  msg_confidence : option Q;
  msg_query_intelligence : option JsObject;
  voice_input : option bool
}.

(** The React state of [ChatInterface]. *)
Record ChatState := mkChat {
  messages : list Message;
  inputText : string;
  isLoading : bool;
  currentWeather : option JsObject;
  chat_error : option string;
  sessionId : option string;
  currentLocation : Location
}.

Definition Update := ChatState -> ChatState.

Definition seq (us : list Update) : Update :=
  fun st => fold_left (fun st' u => u st') us st.

Definition skip : Update := fun st => st.

Definition when (b : bool) (u : Update) : Update :=
  if b then u else skip.

(** [setMessages((prev) => [...prev, m])]. *)
Definition appendMessage (m : Message) : Update := fun st =>
  mkChat (messages st ++ [m])%list (inputText st) (isLoading st)
    (currentWeather st) (chat_error st) (sessionId st) (currentLocation st).
Definition setMessages (v : list Message) : Update := fun st =>
  mkChat v (inputText st) (isLoading st) (currentWeather st) (chat_error st)
    (sessionId st) (currentLocation st).
Definition setInputText (v : string) : Update := fun st =>
  mkChat (messages st) v (isLoading st) (currentWeather st) (chat_error st)
    (sessionId st) (currentLocation st).
Definition setIsLoading (v : bool) : Update := fun st =>
  mkChat (messages st) (inputText st) v (currentWeather st) (chat_error st)
    (sessionId st) (currentLocation st).
Definition setCurrentWeather (v : option JsObject) : Update := fun st =>
  mkChat (messages st) (inputText st) (isLoading st) v (chat_error st)
    (sessionId st) (currentLocation st).
Definition setError (v : option string) : Update := fun st =>
  mkChat (messages st) (inputText st) (isLoading st) (currentWeather st) v
    (sessionId st) (currentLocation st).
Definition setSessionId (v : option string) : Update := fun st =>
  mkChat (messages st) (inputText st) (isLoading st) (currentWeather st)
    (chat_error st) v (currentLocation st).
Definition setCurrentLocation (v : Location) : Update := fun st =>
  mkChat (messages st) (inputText st) (isLoading st) (currentWeather st)
    (chat_error st) (sessionId st) v.

(** The state [useState] starts from. *)
Definition initial : ChatState :=
  mkChat [] "" false None None None (mkLocation "Tokyo" "JP").

(** *** The messages the view builds

    [now] is the reading of [Date.now()] (and of [new Date()]) in the
    synchronous block that builds the message. *)

Definition userMessage (now : Z) (text : string)
    (vm : option VoiceMetadata) : Message :=
  {| id := inject_Z now;
     type := user;
     content := Plain text;
     timestamp := now;
     voice_metadata := vm;
     location_data := None;
     msg_weather := None;
     recommendations := None;
     location := None;
     msg_confidence := None;
     msg_query_intelligence := None;
     voice_input := None |}.

Definition errorMessage (now : Z) (message : string) : Message :=
  {| id := inject_Z now + 1;
     type := error;
     content := Bilingual ("エラーが発生しました: " ++ message)
                          ("Error occurred: " ++ message);
     timestamp := now;
     voice_metadata := None;
     location_data := None;
     msg_weather := None;
     recommendations := None;
     location := None;
     msg_confidence := None;
     msg_query_intelligence := None;
     voice_input := None |}.

Definition locationChangeMessage (now : Z) (locationInfo : LocationInfo)
  : Message :=
  let loc := current_location locationInfo in
  {| id := inject_Z now + (1 # 2);
     type := location_change;
     content :=
       Bilingual
         ("📍 位置が" ++ city loc ++ ", " ++ country loc ++
          "に変更されました。この場所の天気と農業情報を取得しています。")
         ("📍 Location changed to " ++ city loc ++ ", " ++ country loc ++
          ". Getting weather and agricultural info for this location.");
     timestamp := now;
     voice_metadata := None;
     location_data := extracted_location locationInfo;
     msg_weather := None;
     recommendations := None;
     location := None;
     msg_confidence := None;
     msg_query_intelligence := None;
     voice_input := None |}.

(** The assistant's message; [rendered] is the render whose
    [currentLocation] the closure reads. *)
Definition aiMessage (rendered : ChatState) (now : Z)
    (response : ChatResponse) (isVoiceInput : bool) : Message :=
  let locationInfo := location_info response in
  {| id := inject_Z now + 1;
     type := assistant;
     content := Bilingual (Backend.response response)
                          (Backend.response response);
     timestamp := now;
     voice_metadata := None;
     location_data := None;
     msg_weather := weather response;
     recommendations := crop_recommendations response;
     location :=
       Some (match locationInfo with
             | Some li => current_location li
             | None => currentLocation rendered
             end);
     msg_confidence :=
       Some (match locationInfo with
             | Some li => li_confidence li
             | None => 0%Q
             end);
     msg_query_intelligence := query_intelligence response;
     voice_input := Some isVoiceInput |}.

(** *** [processIntelligentChatResponse(response, isVoiceInput)] *)

Definition processIntelligentChatResponse (rendered : ChatState) (now : Z)
    (response : ChatResponse) (isVoiceInput : bool) : Update :=
  when (Js.truthy_opt_bool (success response))
    (seq
       [ (* Update session ID if new *)
         when (Js.truthy_opt_string (session_id response)
               && Js.strict_neq (session_id response) (sessionId rendered))
           (setSessionId (session_id response));
         (* Check if location was extracted/changed *)
         match location_info response with
         | Some locationInfo =>
           when (Js.truthy_opt_bool (location_changed locationInfo))
             (seq [setCurrentLocation (current_location locationInfo);
                   appendMessage (locationChangeMessage now locationInfo)])
         | None => skip
         end;
         (* Add AI response *)
         appendMessage (aiMessage rendered now response isVoiceInput);
         (* Update weather if provided *)
         when (Js.truthy_opt_obj (weather response))
           (setCurrentWeather (weather response)) ]).

(** *** [handleSendMessage(message)] *)

(** How the axios call inside [chatAPI.sendMessage] settles: with the
    response body, or with an error whose body may name a reason. *)
Inductive AxiosOutcome :=
| AxiosOk (data : ChatResponse)
| AxiosError (reason : option string).

(** How [await chatAPI.sendMessage(...)] settles for its caller. *)
Inductive SendOutcome :=
| Resolved (response : ChatResponse)
| Rejected (message : string).

(** The [try]/[catch] of [chatAPI.sendMessage]. *)
Definition sendMessage_outcome (o : AxiosOutcome) : SendOutcome :=
  match o with
  | AxiosOk data => Resolved data
  | AxiosError reason =>
    Rejected (Js.or_string reason "チャット送信に失敗しました")
  end.

(** [message || inputText.trim()]. *)
Definition messageText (rendered : ChatState) (message : option string)
  : string :=
  Js.or_string message (Js.trim (inputText rendered)).

(** [handleSendMessage] up to its [await]: the text sent and the request
    issued, or [None] when there is nothing to send. *)
Definition handleSendMessage_request (rendered : ChatState)
    (message : option string) : option Api.Request :=
  let text := messageText rendered message in
  if negb (Js.truthy_string text) then None
  else Some (Api.chatAPI.sendMessage text (sessionId rendered) "japanese").

Definition handleSendMessage_begin (rendered : ChatState) (now : Z)
    (message : option string) : Update :=
  let text := messageText rendered message in
  when (Js.truthy_string text)
    (seq [setIsLoading true;
          setError None;
          appendMessage (userMessage now text None);
          setInputText ""]).

(** [handleSendMessage] from the point where the call settles. *)
Definition handleSendMessage_settle (rendered : ChatState) (now : Z)
    (outcome : SendOutcome) : Update :=
  seq [ match outcome with
        | Resolved response =>
          processIntelligentChatResponse rendered now response false
        | Rejected message =>
          seq [setError (Some message);
               appendMessage (errorMessage now message)]
        end;
        setIsLoading false ].

(** One whole text exchange, with nothing else happening in between:
    the handler of the current render runs on the current state; [sent]
    and [settled] are the clock readings before and after the call. *)
Definition handleSendMessage (sent settled : Z) (message : option string)
    (outcome : AxiosOutcome) : Update := fun st =>
  let text := messageText st message in
  if negb (Js.truthy_string text) then st
  else
    seq [handleSendMessage_begin st sent message;
         handleSendMessage_settle st settled (sendMessage_outcome outcome)]
      st.

(** *** [handleVoiceProcessingResult(voiceResult)] *)

Definition voiceChatResponse (voiceResult : VoiceResult) : ChatResponse :=
  {| success := ic_success (chat_response voiceResult);
     response := ic_response (chat_response voiceResult);
     session_id := vr_session_id voiceResult;
     location_info := vr_location_info voiceResult;
     weather := vr_weather voiceResult;
     crop_recommendations := vr_crop_recommendations voiceResult;
     query_intelligence := vr_query_intelligence voiceResult;
     resp_error := None |}.

Definition handleVoiceProcessingResult (rendered : ChatState) (now : Z)
    (voiceResult : VoiceResult) : Update :=
  if negb (Js.truthy_opt_bool (vr_success voiceResult))
  then setError (Some (Js.or_string (vr_error voiceResult)
                         "音声処理に失敗しました"))
  else
    let t := transcription voiceResult in
    seq [appendMessage
           (userMessage now (tr_transcript t)
              (Some (mkVoiceMetadata (tr_confidence t)
                       (tr_processing_time t) (tr_word_count t))));
         processIntelligentChatResponse rendered now
           (voiceChatResponse voiceResult) true].

(** The number of messages of a given type in a log. *)
Definition type_eqb (a b : MessageType) : bool :=
  match a, b with
  | user, user | assistant, assistant | system, system
  | location_change, location_change | error, error => true
  | _, _ => false
  end.

Definition count_type (t : MessageType) (log : list Message) : nat :=
  List.length (filter (fun m => type_eqb (type m) t) log).

(** *** Auxiliary notions used to state the view's properties *)

(** The location-change notification a response gives rise to, if any. *)
Definition locationNotice (now : Z) (r : ChatResponse) : list Message :=
  match location_info r with
  | Some li =>
    if Js.truthy_opt_bool (location_changed li)
    then [locationChangeMessage now li]
    else []
  | None => []
  end.

(** The state in which the view waits for the backend: the user's message
    is in the log, the input is cleared, the spinner is on. *)
Definition awaiting (st : ChatState) (sent : Z) (text : string) : ChatState :=
  mkChat (messages st ++ [userMessage sent text None])%list "" true
    (currentWeather st) None (sessionId st) (currentLocation st).

End Chat.

(** ** Concrete runs

    Sessions of the client on given platform and backend answers, used
    below to exercise the handlers. *)

Module Scenarios.

Import Api Backend.

(** *** Recording *)

(** A one-byte blob of a type outside the supported set. *)
Definition oneByteOgv : Blob := mkBlob [Byte.x2a] "video/ogv".

(** A platform that records WAV only. *)
Definition wavOnly (type : string) : bool := String.eqb type "audio/wav".

Definition spoken : Blob :=
  mkBlob [Byte.x52; Byte.x49; Byte.x46; Byte.x46] "audio/wav".

(** A recording on that platform, from the first render to the upload:
    start, one chunk delivered, stop, and the queued events dispatched. *)
Definition wavRecording : Hook.HookState :=
  let h0 := Hook.initial in
  let h1 :=
    Hook.startRecording h0 wavOnly (Hook.Granted (Hook.mkStream 1)) h0 in
  let h2 := Hook.ondataavailable spoken h1 in
  let h3 := Hook.stopRecording h2 h2 in
  Hook.dispatchStop (mkBlob [] "audio/wav") h3.

Definition wavBlob : Blob := mkBlob (blob_data spoken) "audio/wav".

Import Hook.

(** A user who starts a recording on a platform supporting every format,
    speaks, and cancels. *)
Definition started : HookState :=
  startRecording initial (fun _ => true) (Granted (mkStream 1)) initial.

Definition firstChunk : Blob :=
  mkBlob [Byte.x1a; Byte.x45; Byte.xdf; Byte.xa3] "audio/webm;codecs=opus".

Definition lastChunk : Blob :=
  mkBlob [Byte.x42; Byte.x86] "audio/webm;codecs=opus".

Definition cancelled : HookState :=
  let h := ondataavailable firstChunk started in
  cancelRecording h h.

(** The platform then dispatches what [stop()] queued. *)
Definition afterStopEvent : HookState := dispatchStop lastChunk cancelled.

(** A recording stopped before the platform delivered any audio. *)
Definition silent : HookState := stopRecording started started.

(** *** Chatting *)

Import Chat.

Definition question : string := "東京の天気はどう？".

Definition tokyoInfo : LocationInfo :=
  mkLocationInfo (Some true) (mkLocation "Tokyo" "JP") (9 # 10) None.

(** The backend's answer in the Tokyo scenario, for a given reply text and
    weather object. *)
Definition tokyoResponse (reply : string) (w : JsObject) : ChatResponse :=
  {| success := Some true;
     response := reply;
     session_id := Some "abc123";
     location_info := Some tokyoInfo;
     weather := Some w;
     crop_recommendations := None;
     query_intelligence := None;
     resp_error := None |}.

Definition sunny : JsObject :=
  [("temperature", JNum 22); ("description", JStr "晴れ")].

(** The view with the question typed in the input box. *)
Definition typed : ChatState := setInputText question initial.

(** The question is sent and answered. *)
Definition afterTokyo : ChatState :=
  handleSendMessage 1000 1200 None
    (AxiosOk (tokyoResponse "東京は晴れです。" sunny)) typed.

(** A later answer that carries another session identifier. *)
Definition osakaResponse : ChatResponse :=
  {| success := Some true;
     response := "大阪は曇りです。";
     session_id := Some "xyz789";
     location_info := None;
     weather := None;
     crop_recommendations := None;
     query_intelligence := None;
     resp_error := None |}.

Definition afterOsaka : ChatState :=
  handleSendMessage 2000 2300 (Some "大阪は？") (AxiosOk osakaResponse)
    afterTokyo.

(** An answer delivered with HTTP status 200 whose [success] is false. *)
Definition refusal : ChatResponse :=
  {| success := Some false;
     response := "";
     session_id := None;
     location_info := None;
     weather := None;
     crop_recommendations := None;
     query_intelligence := None;
     resp_error := Some "Chat processing failed" |}.

Definition afterRefusal : ChatState :=
  handleSendMessage 1000 1200 None (AxiosOk refusal) typed.

End Scenarios.

(** ** The recording hook as used by the view

    The rest of [useDeepgramVoiceRecording] and the controls of
    [ChatInterface] that drive it. *)

Module HookSession.

Import Api Backend Hook.

Definition setIsSupported (v : bool) : Update := fun h =>
  mkHook (isRecording h) (isProcessing h) (transcript h) (confidence h)
    (error h) v (mediaRecorderRef h) (audioChunksRef h) (streamRef h)
    (liveStreams h) (posted h).

(** [checkSupport()], run once on mount.  [hasGetUserMedia] tells whether
    [navigator.mediaDevices.getUserMedia] exists. *)
Definition checkSupport (hasGetUserMedia : bool)
    (isTypeSupported : string -> bool) : Update :=
  if negb hasGetUserMedia
  then seq [setIsSupported false;
            setError (Some "このブラウザはマイク録音をサポートしていません")]
  else if negb (isTypeSupported "audio/webm")
          && negb (isTypeSupported "audio/wav")
  then seq [setIsSupported false;
            setError
              (Some "このブラウザは対応する音声形式をサポートしていません")]
  else skip.

(** [handleVoiceToggle()] of [ChatInterface]; [rendered] is the render
    whose [isRecording] and [isProcessing] the closure reads, and whose
    [stopRecording] and [startRecording] it calls. *)
Definition handleVoiceToggle (rendered : HookState)
    (isTypeSupported : string -> bool) (media : UserMedia) : Update :=
  if isRecording rendered then stopRecording rendered
  else if isProcessing rendered then skip
  else startRecording rendered isTypeSupported media.

Inductive ButtonIcon := SpinnerIcon | SquareIcon | MicIcon.

Record VoiceButtonState := mkVoiceButton {
  vb_text : string;
  vb_colorScheme : string;
  vb_icon : ButtonIcon;
  vb_isLoading : bool
}.

(** [getVoiceButtonState()]. *)
Definition getVoiceButtonState (rendered : HookState) : VoiceButtonState :=
  if isProcessing rendered
  then mkVoiceButton "AI転写中... / AI Transcribing..." "yellow"
         SpinnerIcon true
  else if isRecording rendered
  then mkVoiceButton "停止 / Stop Recording" "red" SquareIcon false
  else mkVoiceButton "🎤 Deepgram AIで話す / Speak with AI" "blue"
         MicIcon false.

(** What can happen to a hook instance: a control function is called from
    the current render, the platform delivers a recorder event, or the
    pending upload settles. *)
Inductive Event :=
| StartRecording (isTypeSupported : string -> bool) (media : UserMedia)
| StopRecording
| CancelRecording
| ResetTranscript
| VoiceToggle (isTypeSupported : string -> bool) (media : UserMedia)
| DataAvailable (data : Blob)
| StopDispatched (final : Blob)
| RecorderError (message : option string)
| UploadSettled (handlerInstalled : bool) (outcome : FetchOutcome).

Definition step (h : HookState) (e : Event) : HookState :=
  match e with
  | StartRecording sup media => startRecording h sup media h
  | StopRecording => stopRecording h h
  | CancelRecording => cancelRecording h h
  | ResetTranscript => resetTranscript h
  | VoiceToggle sup media => handleVoiceToggle h sup media h
  | DataAvailable data => ondataavailable data h
  | StopDispatched final => dispatchStop final h
  | RecorderError message => onerror message h
  | UploadSettled installed outcome =>
    fst (processAudioWithBackend_settle installed outcome h)
  end.

Definition run (events : list Event) (h : HookState) : HookState :=
  fold_left step events h.

(** A form the hook may post: the two fields of [processAudioFormData]
    around a non-empty audio blob. *)
Definition audioUpload (fd : FormData) : Prop :=
  exists b : Blob, 0 < size b /\ fd = processAudioFormData b.

End HookSession.

(** ** The rest of [ChatInterface] and [MessageBubble] *)

Module ChatView.

Import Backend Chat.

(** *** [loadInitialData()] *)

(** The double-quote character. *)
Definition dquote : string := String (ascii_of_nat 34) EmptyString.

Definition welcomeMessage (now : Z) : Message :=
  {| id := inject_Z now;
     type := system;
     content :=
       Bilingual
         "🌾 こんにちは！農業天気アドバイザーです。音声入力（Deepgram AI搭載）やテキストで質問してください。「東京の天気はどう？」「ムンバイの農業について教えて」などの場所を含む質問が得意です。"
         ("🌾 Hello! I am your Agricultural Weather Advisor with Deepgram AI-powered voice input. Ask questions using voice or text like "
          ++ dquote ++ "How's the weather in Tokyo?" ++ dquote ++ " or "
          ++ dquote ++ "Tell me about farming in Mumbai" ++ dquote ++ "!");
     timestamp := now;
     voice_metadata := None;
     location_data := None;
     msg_weather := None;
     recommendations := None;
     location := None;
     msg_confidence := None;
     msg_query_intelligence := None;
     voice_input := None |}.

(** How [await weatherAPI.getCurrentWeather("Tokyo", "JP")] settles. *)
Inductive WeatherOutcome :=
| WeatherOk (weatherData : JsObject)
| WeatherError (reason : option string).

Definition initializationError : string :=
  "アプリケーションの初期化に失敗しました".

Definition loadInitialData (now : Z) (outcome : WeatherOutcome) : Update :=
  match outcome with
  | WeatherOk weatherData =>
    seq [setCurrentWeather (Some weatherData);
         setMessages [welcomeMessage now]]
  | WeatherError _ => setError (Some initializationError)
  end.

(** *** The send control *)


(** *** [MessageBubble] *)

Record BubbleStyles := mkBubbleStyles {
  alignSelf : string;
  bg : string;
  color : string;
  maxW : string;
  shadow : option string
}.

(** [getBubbleStyles()] for a message. *)
Definition getBubbleStyles (message : Message) : BubbleStyles :=
  match type message with
  | user =>
    mkBubbleStyles "flex-end"
      (if Js.truthy_opt_bool (voice_input message)
       then "purple.500" else "blue.500")
      "white" "80%" None
  | system => mkBubbleStyles "center" "blue.100" "blue.800" "90%" None
  | location_change =>
    mkBubbleStyles "center" "green.100" "green.800" "90%" None
  | error => mkBubbleStyles "center" "red.100" "red.800" "90%" None
  | assistant =>
    mkBubbleStyles "flex-start" "white" "gray.800" "85%" (Some "md")
  end.

(** Whether the bubble shows the Deepgram badge row:
    [type === "user" && voice_metadata]. *)
Definition showsVoiceBadge (message : Message) : bool :=
  type_eqb (type message) user
  && Js.truthy_opt_obj (voice_metadata message).

(** Whether the bubble shows the English block: the content is not a
    plain string and [content.english && content.english !==
    content.japanese]. *)
Definition showsEnglish (message : Message) : bool :=
  match content message with
  | Plain _ => false
  | Bilingual japanese english =>
    Js.truthy_string english && negb (String.eqb english japanese)
  end.

(** Whether the bubble shows the bottom timestamp:
    [(type === "user" || type === "error" || type === "system") &&
    !voice_metadata]. *)
Definition showsTimestamp (message : Message) : bool :=
  (type_eqb (type message) user || type_eqb (type message) error
   || type_eqb (type message) system)
  && negb (Js.truthy_opt_obj (voice_metadata message)).

(** *** The view's events

    What can happen to the view: the user edits the input, a text
    exchange runs from send to settlement, the hook hands over a voice
    result, the initial load settles. *)
Inductive Event :=
| InputChanged (value : string)
| MessageSent (sent settled : Z) (message : option string)
    (outcome : AxiosOutcome)
| VoiceProcessed (now : Z) (voiceResult : VoiceResult)
| InitialDataLoaded (now : Z) (outcome : WeatherOutcome).

Definition step (st : ChatState) (e : Event) : ChatState :=
  match e with
  | InputChanged value => setInputText value st
  | MessageSent sent settled message outcome =>
    handleSendMessage sent settled message outcome st
  | VoiceProcessed now voiceResult =>
    handleVoiceProcessingResult st now voiceResult st
  | InitialDataLoaded now outcome => loadInitialData now outcome st
  end.

Definition run (events : list Event) (st : ChatState) : ChatState :=
  fold_left step events st.

(** Every location-change message of a log is directly followed by an
    assistant message. *)
Fixpoint noticesAnswered (log : list Message) : bool :=
  match log with
  | [] => true
  | m :: rest =>
    (if type_eqb (type m) location_change
     then match rest with
          | m' :: _ => type_eqb (type m') assistant
          | [] => false
          end
     else true)
    && noticesAnswered rest
  end.

(** The stored session identifier is absent or a non-empty string. *)
Definition sessionIdUsable (st : ChatState) : Prop :=
  match sessionId st with
  | None => True
  | Some s => s <> ""
  end.

(** The messages a processed response adds, successful or not. *)
Definition replyBlock (rendered : ChatState) (now : Z) (r : ChatResponse)
    (v : bool) : list Message :=
  if Js.truthy_opt_bool (success r)
  then (locationNotice now r ++ [aiMessage rendered now r v])%list
  else [].

End ChatView.

(** ** [useVoiceRecognition], the Web Speech hook of the same file *)

Module VoiceRecognition.

(** A call made on the recognition object. *)
Inductive EngineCall := StartCall | StopCall.

(** The hook instance: React state, whether [recognitionRef] holds a
    recognition object, the timer handle in [timeoutRef], and the part of
    the world the hook acts on: the pending timers, each with the final
    transcript its callback captured, and the calls made on the
    recognition object. *)
Record RecognitionState := mkRecognition {
  isListening : bool;
  transcript : string;
  isSupported : bool;
  error : option string;
  recognitionRef : bool;
  timeoutRef : option nat;
  timers : list (nat * string);
  calls : list EngineCall
}.

Definition Update := RecognitionState -> RecognitionState.

Definition seq (us : list Update) : Update :=
  fun st => fold_left (fun st' u => u st') us st.

Definition skip : Update := fun st => st.

Definition when (b : bool) (u : Update) : Update :=
  if b then u else skip.

Definition setIsListening (v : bool) : Update := fun st =>
  mkRecognition v (transcript st) (isSupported st) (error st)
    (recognitionRef st) (timeoutRef st) (timers st) (calls st).
Definition setTranscript (v : string) : Update := fun st =>
  mkRecognition (isListening st) v (isSupported st) (error st)
    (recognitionRef st) (timeoutRef st) (timers st) (calls st).
Definition setIsSupported (v : bool) : Update := fun st =>
  mkRecognition (isListening st) (transcript st) v (error st)
    (recognitionRef st) (timeoutRef st) (timers st) (calls st).
Definition setError (v : option string) : Update := fun st =>
  mkRecognition (isListening st) (transcript st) (isSupported st) v
    (recognitionRef st) (timeoutRef st) (timers st) (calls st).
Definition setRecognitionRef (v : bool) : Update := fun st =>
  mkRecognition (isListening st) (transcript st) (isSupported st) (error st)
    v (timeoutRef st) (timers st) (calls st).
Definition setTimeoutRef (v : option nat) : Update := fun st =>
  mkRecognition (isListening st) (transcript st) (isSupported st) (error st)
    (recognitionRef st) v (timers st) (calls st).
Definition setTimers (v : list (nat * string)) : Update := fun st =>
  mkRecognition (isListening st) (transcript st) (isSupported st) (error st)
    (recognitionRef st) (timeoutRef st) v (calls st).
Definition setCalls (v : list EngineCall) : Update := fun st =>
  mkRecognition (isListening st) (transcript st) (isSupported st) (error st)
    (recognitionRef st) (timeoutRef st) (timers st) v.

(** The hook before its mount effect has run. *)
Definition initial : RecognitionState :=
  mkRecognition false "" true None false None [] [].

(** The mount effect; [hasSpeechRecognition] tells whether
    [window.SpeechRecognition || window.webkitSpeechRecognition] exists. *)
Definition mount (hasSpeechRecognition : bool) : Update :=
  if negb hasSpeechRecognition then setIsSupported false
  else setRecognitionRef true.

(** *** Platform operations *)

(** [Boolean(timeoutRef.current)]: a handle is a number, falsy when 0. *)
Definition truthy_handle (ref : option nat) : bool :=
  match ref with
  | Some handle => negb (Nat.eqb handle 0)
  | None => false
  end.

(** [clearTimeout(handle)]. *)
Definition clearTimeout (handle : nat) : Update := fun st =>
  setTimers (filter (fun t => negb (Nat.eqb (fst t) handle)) (timers st)) st.

(** [if (timeoutRef.current) { clearTimeout(timeoutRef.current) }]. *)
Definition clearPending : Update := fun st =>
  match timeoutRef st with
  | Some handle => when (truthy_handle (Some handle)) (clearTimeout handle) st
  | None => st
  end.

(** [recognition.stop()] and [recognition.start()]. *)
Definition recognition_stop : Update := fun st =>
  setCalls (calls st ++ [StopCall])%list st.
Definition recognition_start : Update := fun st =>
  setCalls (calls st ++ [StartCall])%list st.

(** *** Event handlers *)

(** One entry of [event.results]: the transcript of its first
    alternative and its [isFinal] flag. *)
Record SpeechResult := mkResult {
  res_transcript : string;
  isFinal : bool
}.

(** The loop of [onresult]: the pair of [finalTranscript] and
    [interimTranscript] after visiting the results from [resultIndex]. *)
Definition collect (resultIndex : nat) (results : list SpeechResult)
  : string * string :=
  fold_left
    (fun acc r =>
       if isFinal r
       then (fst acc ++ res_transcript r, snd acc)
       else (fst acc, snd acc ++ res_transcript r))
    (skipn resultIndex results) ("", "").

(** [recognition.onresult]; [handle] is what [setTimeout] returns. *)
Definition onresult (resultIndex : nat) (results : list SpeechResult)
    (handle : nat) : Update := fun st =>
  let finalTranscript := fst (collect resultIndex results) in
  let interimTranscript := snd (collect resultIndex results) in
  seq [setTranscript
         (if Js.truthy_string interimTranscript
          then interimTranscript else finalTranscript);
       clearPending;
       (fun st' => setTimers (timers st' ++ [(handle, finalTranscript)])%list
                     st');
       setTimeoutRef (Some handle)] st.

(** The timer callback set by [onresult], for the final transcript it
    captured. *)
Definition autoStop (finalTranscript : string) : Update :=
  when (Js.truthy_string (Js.trim finalTranscript)) recognition_stop.

(** The platform running the pending timer [handle], if there is one. *)
Definition fireTimer (handle : nat) : Update := fun st =>
  match find (fun t => Nat.eqb (fst t) handle) (timers st) with
  | Some t => autoStop (snd t) (clearTimeout handle st)
  | None => st
  end.

(** [recognition.onstart]. *)
Definition onstart : Update :=
  seq [setIsListening true; setError None].

Definition errorMessage (code : string) : string :=
  if String.eqb code "no-speech" then "音声が検出されませんでした"
  else if String.eqb code "audio-capture" then "マイクにアクセスできません"
  else if String.eqb code "not-allowed"
  then "マイクへのアクセスが許可されていません"
  else if String.eqb code "network" then "ネットワークエラーです"
  else "音声認識エラーが発生しました".

(** [recognition.onerror]. *)
Definition onerror (code : string) : Update :=
  seq [setIsListening false; setError (Some (errorMessage code))].

(** [recognition.onend]. *)
Definition onend : Update :=
  seq [setIsListening false; clearPending].

(** *** Control functions *)

(** [startListening()]; [startThrows] tells whether
    [recognition.start()] throws. *)
Definition startListening (rendered : RecognitionState) (startThrows : bool)
  : Update := fun st =>
  if negb (isSupported rendered) || negb (recognitionRef st)
  then setError (Some "音声認識がサポートされていません") st
  else
    let st := seq [setTranscript ""; setError None] st in
    if startThrows
    then setError (Some "音声認識を開始できませんでした") st
    else recognition_start st.

(** [stopListening()]. *)
Definition stopListening (rendered : RecognitionState) : Update := fun st =>
  when (recognitionRef st && isListening rendered) recognition_stop st.

(** [resetTranscript()]. *)
Definition resetTranscript : Update :=
  seq [setTranscript ""; setError None].

(** The cleanup of the mount effect. *)
Definition unmount : Update :=
  seq [clearPending; recognition_stop].

(** *** Reachable states

    The hook is mounted on a platform with speech recognition, then
    control functions are called from the current render and the
    platform delivers events; a timer handle returned by [setTimeout] is
    never 0. *)
Inductive Reachable : RecognitionState -> Prop :=
| reach_mount (b : bool) : Reachable (mount b initial)
| reach_start st throws :
    Reachable st -> Reachable (startListening st throws st)
| reach_stop st : Reachable st -> Reachable (stopListening st st)
| reach_reset st : Reachable st -> Reachable (resetTranscript st)
| reach_onstart st : Reachable st -> Reachable (onstart st)
| reach_onresult st resultIndex results handle :
    Reachable st -> handle <> 0%nat ->
    Reachable (onresult resultIndex results handle st)
| reach_fire st handle : Reachable st -> Reachable (fireTimer handle st)
| reach_onerror st code : Reachable st -> Reachable (onerror code st)
| reach_onend st : Reachable st -> Reachable (onend st).

(** The pending timers are at most the one [timeoutRef] names. *)
Definition timerTracked (st : RecognitionState) : Prop :=
  timers st = []
  \/ exists (handle : nat) (finalTranscript : string),
       timers st = [(handle, finalTranscript)]
       /\ timeoutRef st = Some handle
       /\ handle <> 0%nat.

(** The transcripts of the results satisfying [keep], joined in order. *)
Definition joined (keep : SpeechResult -> bool) (results : list SpeechResult)
  : string :=
  String.concat "" (map res_transcript (filter keep results)).

(** A session: mounted, started, one final result heard. *)
Definition heard : RecognitionState :=
  let mounted := mount true initial in
  let started := onstart (startListening mounted false mounted) in
  onresult 0 [mkResult "こんにちは" true] 7 started.

End VoiceRecognition.

(** ** More concrete runs *)

Module VoiceScenarios.

Import Backend.

(** A voice result transcribed with low confidence. *)
Definition mumbled : VoiceResult :=
  {| vr_success := Some true;
     vr_error := None;
     transcription := mkTranscription "東京の天気" (55 # 100) 820 2;
     chat_response := mkInnerChat (Some true) "東京は晴れです。";
     vr_session_id := Some "abc123";
     vr_location_info := None;
     vr_weather := None;
     vr_crop_recommendations := None;
     vr_query_intelligence := None |}.

End VoiceScenarios.

(** * Properties *)

(** ** Audio validation *)

Module ApiFacts.

Import Api Scenarios.

Lemma size_nonneg (b : Blob) : 0 <= size b.
Proof. unfold size. lia. Qed.

Lemma size_zero_iff_no_data (b : Blob) : size b = 0 <-> blob_data b = [].
Proof.
  unfold size. destruct (blob_data b) as [|x l]; simpl; split; intro H;
    try reflexivity; try discriminate; lia.
Qed.

(** Runs [validateAudioBlob] on [Some b] through each of its branches. *)
Ltac by_branches b :=
  unfold validateAudioBlob;
  destruct (size b =? 0); [reflexivity|];
  destruct (size b >? maxSize); destruct (size b <? 1024);
  destruct (negb (existsb (fun type => Js.includes (blob_type b) type)
                    supportedTypes));
  reflexivity.

(** The validity flag is decided by the size alone. *)
Lemma valid_by_size (b : Blob) :
  valid (validateAudioBlob (Some b))
  = negb (size b =? 0) && negb (size b >? maxSize).
Proof.
  by_branches b.
Qed.

(** The errors are decided by the size alone as well. *)
Lemma errors_by_size (b : Blob) :
  errors (validateAudioBlob (Some b))
  = if size b =? 0 then [emptyAudioError]
    else if size b >? maxSize then [tooLargeError (size b)]
    else [].
Proof.
  by_branches b.
Qed.

Lemma warnings_of_nonempty (b : Blob) :
  size b <> 0 ->
  warnings (validateAudioBlob (Some b))
  = ((if size b <? 1024 then [smallWarning] else []) ++
     (if negb (existsb (fun type => Js.includes (blob_type b) type)
                 supportedTypes)
      then [typeWarning (blob_type b)] else []))%list.
Proof.
  intro Hnz. unfold validateAudioBlob.
  destruct (Z.eqb_spec (size b) 0) as [Hz | _]; [contradiction|].
  destruct (size b >? maxSize); destruct (size b <? 1024);
    destruct (negb (existsb (fun type => Js.includes (blob_type b) type)
                      supportedTypes)); reflexivity.
Qed.

(** C7: a buffer whose length is strictly between 0 and 1 KiB is valid
    and carries at least one warning (the small-size one); and no
    warning ever clears the validity flag: any non-empty buffer up to the
    500 MiB ceiling is valid whatever its size and declared type, so a
    false flag always comes with an error. *)
Theorem small_buffer_valid_with_warnings (b : Blob) :
  0 < size b -> size b < 1024 ->
  valid (validateAudioBlob (Some b)) = true
  /\ warnings (validateAudioBlob (Some b)) <> []
  /\ In smallWarning (warnings (validateAudioBlob (Some b)))
  /\ (forall b' : Blob,
         0 < size b' <= maxSize ->
         valid (validateAudioBlob (Some b')) = true)
  /\ (forall b' : Blob,
         valid (validateAudioBlob (Some b')) = false ->
         errors (validateAudioBlob (Some b')) <> []).
Proof.
  intros Hpos Hlt.
  assert (Hnz : size b <> 0) by lia.
  assert (Hw : In smallWarning (warnings (validateAudioBlob (Some b)))).
  { rewrite (warnings_of_nonempty b Hnz).
    destruct (Z.ltb_spec (size b) 1024) as [_ | Hge]; [|lia].
    apply in_or_app. left. left. reflexivity. }
  repeat split.
  - rewrite valid_by_size.
    destruct (Z.eqb_spec (size b) 0) as [Hz | _]; [lia|].
    destruct (Z.gtb_spec (size b) maxSize) as [Hbig | _];
      [unfold maxSize in Hbig; lia | reflexivity].
  - intro Hnil. rewrite Hnil in Hw. destruct Hw.
  - exact Hw.
  - intros b' [Hpos' Hle']. rewrite valid_by_size.
    destruct (Z.eqb_spec (size b') 0) as [Hz | _]; [lia|].
    destruct (Z.gtb_spec (size b') maxSize) as [Hbig | _];
      [lia | reflexivity].
  - intros b' Hinvalid. rewrite valid_by_size in Hinvalid.
    rewrite errors_by_size.
    destruct (size b' =? 0); [discriminate|].
    destruct (size b' >? maxSize); [discriminate|].
    simpl in Hinvalid. discriminate.
Qed.

Lemma small_buffer_valid_with_warnings_witness :
  0 < size oneByteOgv /\ size oneByteOgv < 1024
  /\ valid (validateAudioBlob (Some oneByteOgv)) = true
  /\ warnings (validateAudioBlob (Some oneByteOgv))
     = [smallWarning; typeWarning "video/ogv"].
Proof.
  assert (Hpos : 0 < size oneByteOgv) by (vm_compute; reflexivity).
  assert (Hlt : size oneByteOgv < 1024) by (vm_compute; reflexivity).
  split; [exact Hpos|]. split; [exact Hlt|].
  split.
  - exact (proj1 (small_buffer_valid_with_warnings oneByteOgv Hpos Hlt)).
  - reflexivity.
Defined.

(** C10: [validateAudioBlob] returns a result for every argument, a
    missing blob included; in that result the validity flag is true
    exactly when the list of errors is empty; and for a missing or
    zero-length blob the result is the early one, with exactly one error
    and no warning. *)
Theorem validateAudioBlob_total_and_consistent (a : option Blob) :
  exists r : ValidationResult,
    validateAudioBlob a = r
    /\ (valid r = true <-> errors r = [])
    /\ ((a = None \/ exists b, a = Some b /\ size b = 0) ->
        valid r = false
        /\ errors r = [emptyAudioError]
        /\ List.length (errors r) = 1%nat
        /\ warnings r = []).
Proof.
  exists (validateAudioBlob a). split; [reflexivity|]. split.
  - destruct a as [b|].
    + rewrite valid_by_size, errors_by_size.
      destruct (size b =? 0); simpl; [split; discriminate|].
      destruct (size b >? maxSize); simpl; split;
        try discriminate; reflexivity.
    + simpl. split; discriminate.
  - intros [Hnone | [b [Hsome Hz]]]; subst a.
    + repeat split.
    + unfold validateAudioBlob. rewrite Hz. repeat split.
Qed.

Lemma validateAudioBlob_total_and_consistent_witness :
  exists r : ValidationResult,
    validateAudioBlob (Some (mkBlob [] "audio/webm")) = r
    /\ valid r = false
    /\ errors r = [emptyAudioError]
    /\ warnings r = [].
Proof.
  destruct (validateAudioBlob_total_and_consistent
              (Some (mkBlob [] "audio/webm")))
    as [r [Hr [_ Hempty]]].
  exists r. split; [exact Hr|].
  destruct Hempty as [Hv [He [_ Hw]]].
  - right. exists (mkBlob [] "audio/webm"). split; reflexivity.
  - repeat split; assumption.
Defined.

End ApiFacts.

(** ** Building the voice request, and the client's timeouts *)

Module RequestFacts.

Import Api Scenarios.

(** The audio part of [createVoiceFormData]: one part named [audio],
    whose filename follows the blob's declared type. *)
Lemma createVoiceFormData_audio (b : Blob) (o : VoiceOptions) :
  get_all (createVoiceFormData b o) "audio"
  = [FileValue b (if Js.includes (blob_type b) "webm"
                  then "recording.webm" else "recording.wav")].
Proof.
  unfold createVoiceFormData.
  destruct (Js.truthy_opt_string (opt_session_id o));
    destruct (Js.includes (blob_type b) "webm"); reflexivity.
Qed.

(** The session field is there exactly when a session identifier is
    supplied. *)
Lemma createVoiceFormData_session (b : Blob) (o : VoiceOptions) :
  has_field (createVoiceFormData b o) "session_id"
  = Js.truthy_opt_string (opt_session_id o).
Proof.
  unfold createVoiceFormData.
  destruct (Js.truthy_opt_string (opt_session_id o)); reflexivity.
Qed.

(** The language field is always there, [ja] unless another is given. *)
Lemma createVoiceFormData_language (b : Blob) (o : VoiceOptions) :
  get_all (createVoiceFormData b o) "language"
  = [FieldValue (Js.or_string (opt_language o) "ja")].
Proof.
  unfold createVoiceFormData.
  destruct (Js.truthy_opt_string (opt_session_id o)); reflexivity.
Qed.

(** What the hook posts instead: the same two fields whatever the blob. *)
Lemma processAudioFormData_fields (b : Blob) :
  Hook.processAudioFormData b
  = [("audio", FileValue b "recording.webm"); ("language", FieldValue "ja")].
Proof. reflexivity. Qed.

(** C8: the recording hook's own upload does not follow the rule that
    [createVoiceFormData] implements.  On a platform that negotiates
    [audio/wav], the hook posts the WAV blob under the filename
    [recording.webm], where [createVoiceFormData] names it
    [recording.wav]; and the hook's form has no session field even when
    the caller of [createVoiceFormData] would have supplied one. *)
Theorem hook_upload_filename_not_inferred :
  Hook.posted wavRecording
  = [[("audio", FileValue wavBlob "recording.webm");
      ("language", FieldValue "ja")]]
  /\ createVoiceFormData wavBlob (mkVoiceOptions (Some "abc123") None)
     = [("audio", FileValue wavBlob "recording.wav");
        ("session_id", FieldValue "abc123");
        ("language", FieldValue "ja")]
  /\ get_all (Hook.processAudioFormData wavBlob) "audio"
     <> get_all (createVoiceFormData wavBlob no_options) "audio".
Proof.
  split; [vm_compute; reflexivity|].
  split; [vm_compute; reflexivity|].
  vm_compute. intro H. discriminate H.
Qed.

(** Every JSON call inherits the axios instance's configuration. *)
Lemma json_call_transport (r : Request) :
  JsonCall r -> req_transport r = ViaAxios api.
Proof. intros []; reflexivity. Qed.

(** C9, as the code has it: the request timeout of every JSON call, that
    is of every call made through the shared axios instance, is the
    fixed 60 seconds of that instance's configuration. *)
Theorem json_calls_timeout_60s (r : Request) :
  JsonCall r -> request_timeout r = Some 60000.
Proof.
  intro Hcall. unfold request_timeout.
  rewrite (json_call_transport r Hcall). reflexivity.
Qed.

Lemma json_calls_timeout_60s_witness :
  request_timeout (chatAPI.sendMessage "東京の天気はどう？" None "japanese")
  = Some 60000.
Proof.
  apply json_calls_timeout_60s. apply call_sendMessage.
Defined.

(** C9, as stated, fails: a chat call does not time out after 30
    seconds, and the voice submission is not posted with a 60 second
    timeout. *)
Lemma timeouts_30s_and_60s_counterexample :
  request_timeout (chatAPI.sendMessage "東京の天気はどう？" None "japanese")
  <> Some 30000
  /\ request_timeout
       (chatAPI.processVoiceInput (createVoiceFormData wavBlob no_options))
     <> Some 60000.
Proof.
  split; intro H; vm_compute in H; discriminate H.
Qed.

End RequestFacts.

(** ** The recording hook *)

Module HookFacts.

Import Api Hook Scenarios.

(** *** Cancelling *)

(** Right after [cancelRecording] returns, whatever the state it was
    called in and whichever render its closure belongs to, the
    controller is idle, the chunk buffer is empty and no stream is
    held. *)
Lemma cancelRecording_resets (rendered h : HookState) :
  let h' := cancelRecording rendered h in
  idle h' /\ audioChunksRef h' = [] /\ streamRef h' = None
  /\ transcript h' = "" /\ error h' = None.
Proof.
  destruct h as [rec proc tr conf err sup [r|] chunks [s|] live sent];
    destruct (isRecording rendered) eqn:Hr;
    unfold cancelRecording, idle; cbn; rewrite ?Hr; cbn;
    repeat split.
Qed.

(** The stream that was held is released: none of its tracks stays
    live. *)
Lemma cancelRecording_releases (rendered h : HookState) (s : MediaStream) :
  streamRef h = Some s ->
  ~ In (stream_id s) (liveStreams (cancelRecording rendered h)).
Proof.
  intros Hs Hin. unfold cancelRecording in Hin.
  assert (Hkeep : forall b,
             streamRef (when b stopCurrentRecorder h) = Some s
             /\ liveStreams (when b stopCurrentRecorder h) = liveStreams h).
  { intros [|]; unfold when, stopCurrentRecorder, skip;
      destruct (mediaRecorderRef h); split; assumption || reflexivity. }
  destruct (Hkeep (Js.truthy_opt_obj (mediaRecorderRef h)
                   && isRecording rendered)) as [Hs' Hl'].
  rewrite Hs' in Hin. cbn in Hin. rewrite Hl' in Hin.
  apply filter_In in Hin. destruct Hin as [_ Hne].
  rewrite Nat.eqb_refl in Hne. discriminate Hne.
Qed.

(** Calling [cancelRecording] a second time changes nothing more, both
    when the second call comes from the next render and when it comes
    from the same closure as the first. *)
Lemma cancelRecording_twice (h : HookState) :
  let h' := cancelRecording h h in
  cancelRecording h' h' = h' /\ cancelRecording h h' = h'.
Proof.
  destruct h as [rec proc tr conf err sup [[mime [|] q]|] chunks [s|] live
                 sent];
    destruct rec; intro h'; vm_compute in h'; subst h';
    split; vm_compute; reflexivity.
Qed.

(** What the [stop] event does after a cancellation, in general: if the
    recording was active and the last [dataavailable] carries audio, the
    controller goes to the processing state and that audio is posted. *)
Lemma cancel_then_stop_event (h : HookState) (mime : string) (final : Blob) :
  isRecording h = true ->
  mediaRecorderRef h = Some (mkRecorder mime recording false) ->
  0 < size final ->
  let h' := dispatchStop final (cancelRecording h h) in
  isProcessing h' = true
  /\ audioChunksRef h' = [final]
  /\ posted h'
     = (posted h ++ [processAudioFormData (newBlob [final] mime)])%list.
Proof.
  intros Hrec Href Hpos.
  assert (Hgt : (size final >? 0) = true) by (apply Z.gtb_lt; exact Hpos).
  assert (Hnz : (size (newBlob [final] mime) =? 0) = false).
  { apply Z.eqb_neq. unfold newBlob, size in *. cbn.
    rewrite app_nil_r. lia. }
  destruct h as [rec proc tr conf err sup ref chunks [s|] live sent];
    cbn in Hrec, Href; subst rec ref;
    unfold dispatchStop, cancelRecording; cbn;
    unfold ondataavailable; cbn; rewrite Hgt; cbn;
    unfold onstop; cbn; rewrite Hnz; cbn; repeat split.
Qed.

(** C3: the state [cancelRecording] leaves does not survive the
    recorder's [stop] event.  Cancelling an active recording calls
    [stop()]; when the queued [dataavailable] and [stop] events are
    dispatched after the cancellation, [onstop] puts the controller in
    the processing state, the buffer holds the last chunk again, and
    that audio is posted to the backend. *)
Theorem cancel_undone_by_stop_event :
  isRecording started = true
  /\ (idle cancelled /\ audioChunksRef cancelled = []
      /\ streamRef cancelled = None /\ posted cancelled = [])
  /\ isProcessing afterStopEvent = true
  /\ audioChunksRef afterStopEvent = [lastChunk]
  /\ posted afterStopEvent
     = [processAudioFormData
          (mkBlob (blob_data lastChunk) "audio/webm;codecs=opus")].
Proof.
  vm_compute. repeat split.
Qed.

(** *** Empty recordings *)

(** [onstop] on an empty assembled buffer: nothing is posted, the error
    is set, and the controller is idle again. *)
Lemma onstop_empty (mime : string) (h : HookState) :
  size (newBlob (audioChunksRef h) mime) = 0 ->
  posted (onstop mime h) = posted h
  /\ error (onstop mime h) = Some emptyRecordingError
  /\ idle (onstop mime h).
Proof.
  intro Hz. unfold onstop, idle.
  destruct (streamRef h) as [s|] eqn:Hs; cbn; rewrite Hs; cbn;
    rewrite Hz; cbn; repeat split.
Qed.

(** C6: every zero-length buffer is rejected by [validateAudioBlob] with
    the empty-audio error, and is never submitted: when the buffer that
    [onstop] assembles from the recorded chunks is that buffer, [onstop]
    posts nothing to the voice endpoint, reports the empty recording
    through the hook's [error], and leaves the controller idle, so that
    the recording can be started again. *)
Theorem empty_audio_rejected_and_not_submitted (b : Blob) :
  size b = 0 ->
  (valid (validateAudioBlob (Some b)) = false
   /\ In emptyAudioError (errors (validateAudioBlob (Some b))))
  /\ (forall (mime : string) (h : HookState),
         newBlob (audioChunksRef h) mime = b ->
         posted (onstop mime h) = posted h
         /\ error (onstop mime h) = Some emptyRecordingError
         /\ isRecording (onstop mime h) = false
         /\ isProcessing (onstop mime h) = false).
Proof.
  intro Hz. split; [split|].
  - rewrite ApiFacts.valid_by_size. rewrite Hz. reflexivity.
  - rewrite ApiFacts.errors_by_size. rewrite Hz. left. reflexivity.
  - intros mime h Hb. rewrite <- Hb in Hz.
    destruct (onstop_empty mime h Hz) as [Hp [He [Hr Hq]]].
    repeat split; assumption.
Qed.

Lemma empty_audio_rejected_and_not_submitted_witness :
  size (mkBlob [] "audio/webm;codecs=opus") = 0
  /\ valid (validateAudioBlob (Some (mkBlob [] "audio/webm;codecs=opus")))
     = false
  /\ posted (onstop "audio/webm;codecs=opus" silent) = []
  /\ error (onstop "audio/webm;codecs=opus" silent)
     = Some emptyRecordingError.
Proof.
  assert (Hz : size (mkBlob [] "audio/webm;codecs=opus") = 0)
    by reflexivity.
  split; [exact Hz|].
  destruct (empty_audio_rejected_and_not_submitted
              (mkBlob [] "audio/webm;codecs=opus") Hz)
    as [[Hinvalid _] Hhook].
  split; [exact Hinvalid|].
  destruct (Hhook "audio/webm;codecs=opus" silent eq_refl)
    as [Hp [He _]].
  split; [exact Hp | exact He].
Defined.

End HookFacts.

(** ** The chat view *)

Module ChatFacts.

Import Backend Chat Scenarios.

(** Splits on every test [processIntelligentChatResponse] makes. *)
Ltac process_cases rendered r :=
  unfold processIntelligentChatResponse, locationNotice;
  destruct (Js.truthy_opt_string (session_id r)
            && Js.strict_neq (session_id r) (sessionId rendered));
  destruct (location_info r) as [li|];
  [ destruct (Js.truthy_opt_bool (location_changed li)) | |
    destruct (Js.truthy_opt_bool (location_changed li)) | ];
  destruct (Js.truthy_opt_obj (weather r));
  cbn.

(** Runs the setters applied to a state. *)
Ltac run_setters :=
  unfold setIsLoading, setError, setInputText, appendMessage, setMessages,
    setCurrentWeather, setSessionId, setCurrentLocation;
  cbn [messages inputText isLoading currentWeather chat_error sessionId
       currentLocation].

(** A response whose [success] is absent or false changes nothing. *)
Lemma process_unsuccessful rendered now r v st :
  Js.truthy_opt_bool (success r) = false ->
  processIntelligentChatResponse rendered now r v st = st.
Proof.
  intro Hs. unfold processIntelligentChatResponse. rewrite Hs. reflexivity.
Qed.

Section Successful.

Variables (rendered st : ChatState) (now : Z) (r : ChatResponse) (v : bool).
Hypothesis Hsuccess : Js.truthy_opt_bool (success r) = true.

Let st' := processIntelligentChatResponse rendered now r v st.

Lemma process_messages :
  messages st'
  = (messages st ++ locationNotice now r ++ [aiMessage rendered now r v])%list.
Proof.
  subst st'. revert Hsuccess. process_cases rendered r; intros ->; cbn;
    rewrite <- ?app_assoc; reflexivity.
Qed.

Lemma process_sessionId :
  sessionId st'
  = if Js.truthy_opt_string (session_id r)
       && Js.strict_neq (session_id r) (sessionId rendered)
    then session_id r
    else sessionId st.
Proof.
  subst st'. revert Hsuccess. process_cases rendered r; intros ->; reflexivity.
Qed.

Lemma process_currentLocation :
  currentLocation st'
  = match location_info r with
    | Some li =>
      if Js.truthy_opt_bool (location_changed li)
      then current_location li
      else currentLocation st
    | None => currentLocation st
    end.
Proof.
  subst st'. revert Hsuccess. process_cases rendered r; intros ->; reflexivity.
Qed.

Lemma process_currentWeather :
  currentWeather st'
  = if Js.truthy_opt_obj (weather r) then weather r else currentWeather st.
Proof.
  subst st'. revert Hsuccess. process_cases rendered r; intros ->; reflexivity.
Qed.

End Successful.

(** [!==] against a truthy string decides whether the stored identifier
    already is that string. *)
Lemma strict_neq_false (a b : option string) :
  Js.strict_neq a b = false -> a = b.
Proof.
  destruct a as [x|], b as [y|]; simpl; intro H; try discriminate;
    try reflexivity.
  apply negb_false_iff in H. apply String.eqb_eq in H. subst. reflexivity.
Qed.

Lemma count_type_app (t : MessageType) (l1 l2 : list Message) :
  count_type t (l1 ++ l2) = (count_type t l1 + count_type t l2)%nat.
Proof.
  unfold count_type. rewrite filter_app, length_app. reflexivity.
Qed.

Lemma handleSendMessage_nothing st sent settled message outcome :
  Js.truthy_string (messageText st message) = false ->
  handleSendMessage sent settled message outcome st = st.
Proof.
  intro Ht. unfold handleSendMessage. rewrite Ht. reflexivity.
Qed.

Lemma handleSendMessage_resolved st sent settled message data :
  Js.truthy_string (messageText st message) = true ->
  handleSendMessage sent settled message (AxiosOk data) st
  = setIsLoading false
      (processIntelligentChatResponse st settled data false
         (awaiting st sent (messageText st message))).
Proof.
  intro Ht. unfold handleSendMessage, handleSendMessage_begin.
  rewrite Ht. reflexivity.
Qed.

Lemma handleSendMessage_rejected st sent settled message reason :
  Js.truthy_string (messageText st message) = true ->
  handleSendMessage sent settled message (AxiosError reason) st
  = let why := Js.or_string reason "チャット送信に失敗しました" in
    mkChat (messages st ++ [userMessage sent (messageText st message) None;
                            errorMessage settled why])%list
      "" false (currentWeather st) (Some why) (sessionId st)
      (currentLocation st).
Proof.
  intro Ht. unfold handleSendMessage, handleSendMessage_begin.
  rewrite Ht. cbn. run_setters. rewrite <- app_assoc. reflexivity.
Qed.

(** *** Session identifier *)

(** C1, as the code has it: when a successful response is processed by the
    handler of the current render, the stored session identifier is kept
    if the response carries no session identifier (absent or empty), and
    becomes the response's identifier whenever it carries one, a different
    one included; there is no separate signal for a new session. *)
Theorem session_id_follows_response
    (rendered st : ChatState) (now : Z) (r : ChatResponse) (v : bool) :
  sessionId rendered = sessionId st ->
  Js.truthy_opt_bool (success r) = true ->
  let st' := processIntelligentChatResponse rendered now r v st in
  (Js.truthy_opt_string (session_id r) = false ->
   sessionId st' = sessionId st)
  /\ (forall s : string,
         session_id r = Some s -> s <> "" -> sessionId st' = Some s).
Proof.
  intros Hfresh Hs st'. subst st'.
  rewrite (process_sessionId rendered st now r v Hs). split.
  - intros ->. reflexivity.
  - intros s Hr Hne. rewrite Hr, Hfresh.
    assert (Ht : Js.truthy_opt_string (Some s) = true)
      by (destruct s; [contradiction Hne; reflexivity | reflexivity]).
    rewrite Ht. cbn [andb].
    destruct (Js.strict_neq (Some s) (sessionId st)) eqn:Hneq;
      [reflexivity|].
    symmetry. apply strict_neq_false. exact Hneq.
Qed.

(** *** Location changes *)

(** C5: processing a successful response whose [location_info] has
    [location_changed] true appends exactly one location-change message
    (followed by the assistant's reply) and sets the current location to
    [location_info.current_location]; a response without that flag
    (no [location_info], or [location_changed] absent or false) appends no
    location-change message and leaves the current location as it was. *)
Theorem location_change_notice
    (rendered st : ChatState) (now : Z) (r : ChatResponse) (v : bool) :
  Js.truthy_opt_bool (success r) = true ->
  let st' := processIntelligentChatResponse rendered now r v st in
  (forall li : LocationInfo,
      location_info r = Some li -> location_changed li = Some true ->
      messages st'
      = (messages st ++ [locationChangeMessage now li;
                         aiMessage rendered now r v])%list
      /\ count_type location_change (messages st')
         = S (count_type location_change (messages st))
      /\ currentLocation st' = current_location li)
  /\ ((location_info r = None
       \/ exists li, location_info r = Some li
                     /\ location_changed li <> Some true) ->
      messages st' = (messages st ++ [aiMessage rendered now r v])%list
      /\ count_type location_change (messages st')
         = count_type location_change (messages st)
      /\ currentLocation st' = currentLocation st).
Proof.
  intros Hs st'. subst st'.
  rewrite (process_messages rendered st now r v Hs).
  rewrite (process_currentLocation rendered st now r v Hs).
  unfold locationNotice. split.
  - intros li Hli Hflag. rewrite Hli, Hflag. cbn.
    repeat split. rewrite count_type_app. cbn. lia.
  - assert (Hoff : forall li, location_changed li <> Some true ->
                              Js.truthy_opt_bool (location_changed li) = false).
    { intros li Hne. destruct (location_changed li) as [[|]|];
        [contradiction Hne; reflexivity | reflexivity | reflexivity]. }
    intros [Hnone | [li [Hli Hflag]]].
    + rewrite Hnone. cbn. repeat split.
      rewrite count_type_app. cbn. lia.
    + rewrite Hli, (Hoff li Hflag). cbn. repeat split.
      rewrite count_type_app. cbn. lia.
Qed.

(** *** Failed text exchanges *)

(** C2, as the code has it: when the chat call itself fails (axios
    rejects), exactly one error message carrying the failure reason is
    appended after the user's message and the reason is stored as the
    view's error; when the call returns a response whose [success] is
    absent or false, the log holds the user's message and nothing more.
    In both cases the session identifier and the current location are
    unchanged. *)
Theorem failed_text_exchange
    (st : ChatState) (sent settled : Z) (message : option string) :
  let text := messageText st message in
  Js.truthy_string text = true ->
  (forall reason : option string,
      let why := Js.or_string reason "チャット送信に失敗しました" in
      let st' :=
        handleSendMessage sent settled message (AxiosError reason) st in
      messages st'
      = (messages st ++ [userMessage sent text None;
                         errorMessage settled why])%list
      /\ count_type error (messages st') = S (count_type error (messages st))
      /\ content (errorMessage settled why)
         = Bilingual ("エラーが発生しました: " ++ why)
                     ("Error occurred: " ++ why)
      /\ chat_error st' = Some why
      /\ sessionId st' = sessionId st
      /\ currentLocation st' = currentLocation st)
  /\ (forall data : ChatResponse,
         Js.truthy_opt_bool (success data) = false ->
         let st' := handleSendMessage sent settled message (AxiosOk data) st in
         messages st' = (messages st ++ [userMessage sent text None])%list
         /\ sessionId st' = sessionId st
         /\ currentLocation st' = currentLocation st).
Proof.
  intros text Ht. split.
  - intros reason why st'. subst st'.
    rewrite (handleSendMessage_rejected st sent settled message reason Ht).
    cbn [messages chat_error sessionId currentLocation].
    repeat split. rewrite count_type_app. cbn. lia.
  - intros data Hfail st'. subst st'.
    rewrite (handleSendMessage_resolved st sent settled message data Ht).
    rewrite (process_unsuccessful _ _ _ _ _ Hfail).
    unfold awaiting. run_setters. repeat split.
Qed.

Lemma failed_text_exchange_witness :
  Js.truthy_string (messageText typed None) = true
  /\ messages (handleSendMessage 1000 1200 None
                 (AxiosError (Some "Internal server error")) typed)
     = [userMessage 1000 question None;
        errorMessage 1200 "Internal server error"].
Proof.
  assert (Ht : Js.truthy_string (messageText typed None) = true)
    by (vm_compute; reflexivity).
  split; [exact Ht|].
  destruct (failed_text_exchange typed 1000 1200 None Ht) as [Hrejected _].
  destruct (Hrejected (Some "Internal server error")) as [Hlog _].
  rewrite Hlog. vm_compute. reflexivity.
Defined.

(** C2, as stated, fails: a response delivered with [success] false is a
    failed exchange for which no error message is appended; the log holds
    the user's message only. *)
Lemma unsuccessful_response_counterexample :
  Js.truthy_opt_bool (success refusal) = false
  /\ messages afterRefusal = [userMessage 1000 question None]
  /\ count_type error (messages afterRefusal)
     <> S (count_type error (messages typed)).
Proof.
  split; [reflexivity|]. split; [vm_compute; reflexivity|].
  vm_compute. intro H. discriminate H.
Qed.

Lemma session_id_follows_response_witness :
  sessionId afterTokyo = sessionId afterTokyo
  /\ Js.truthy_opt_bool (success osakaResponse) = true
  /\ sessionId (processIntelligentChatResponse afterTokyo 2300 osakaResponse
                  false afterTokyo)
     = Some "xyz789".
Proof.
  split; [reflexivity|]. split; [reflexivity|].
  apply (session_id_follows_response afterTokyo afterTokyo 2300 osakaResponse
           false eq_refl eq_refl).
  - reflexivity.
  - discriminate.
Defined.

(** C1, as stated, fails: the identifier [abc123], stored from the first
    successful response, is replaced when a later successful response
    carries [xyz789]. *)
Lemma session_id_overwritten_counterexample :
  sessionId typed = None
  /\ sessionId afterTokyo = Some "abc123"
  /\ Js.truthy_opt_bool (success osakaResponse) = true
  /\ sessionId afterOsaka = Some "xyz789"
  /\ sessionId afterOsaka <> sessionId afterTokyo.
Proof.
  split; [reflexivity|]. split; [vm_compute; reflexivity|].
  split; [reflexivity|]. split; [vm_compute; reflexivity|].
  vm_compute. intro H. discriminate H.
Qed.

Lemma location_change_notice_witness :
  Js.truthy_opt_bool (success (tokyoResponse "東京は晴れです。" sunny)) = true
  /\ count_type location_change
       (messages (processIntelligentChatResponse initial 1200
                    (tokyoResponse "東京は晴れです。" sunny) false initial))
     = 1%nat
  /\ currentLocation (processIntelligentChatResponse initial 1200
                        (tokyoResponse "東京は晴れです。" sunny) false initial)
     = mkLocation "Tokyo" "JP".
Proof.
  split; [reflexivity|].
  destruct (location_change_notice initial initial 1200
              (tokyoResponse "東京は晴れです。" sunny) false eq_refl)
    as [Hchanged _].
  destruct (Hchanged tokyoInfo eq_refl eq_refl) as [_ [Hcount Hloc]].
  split; [exact Hcount | exact Hloc].
Defined.

(** *** The Tokyo scenario *)

(** C4: the user sends the question (typed in the input box or passed to
    the handler) and the backend answers with success, a reply, session
    identifier [abc123], a location change to Tokyo, JP and a weather
    object.  The log then gains exactly three entries, the user's message,
    the location-change notice and the assistant's reply, in that order;
    the stored session identifier is [abc123]; the cached weather is the
    returned one. *)
Theorem tokyo_scenario
    (st : ChatState) (sent settled : Z) (message : option string)
    (reply : string) (w : JsObject) :
  messageText st message = question ->
  let answer := tokyoResponse reply w in
  let st' := handleSendMessage sent settled message (AxiosOk answer) st in
  messages st'
  = (messages st ++ [userMessage sent question None;
                     locationChangeMessage settled tokyoInfo;
                     aiMessage st settled answer false])%list
  /\ List.length (messages st') = (List.length (messages st) + 3)%nat
  /\ map type (skipn (List.length (messages st)) (messages st'))
     = [user; location_change; assistant]
  /\ sessionId st' = Some "abc123"
  /\ currentWeather st' = Some w
  /\ currentLocation st' = mkLocation "Tokyo" "JP".
Proof.
  intros Htext answer st'.
  assert (Ht : Js.truthy_string (messageText st message) = true)
    by (rewrite Htext; reflexivity).
  assert (Hs : Js.truthy_opt_bool (success answer) = true) by reflexivity.
  assert (Hlog : messages st'
                 = (messages st ++ [userMessage sent question None;
                                    locationChangeMessage settled tokyoInfo;
                                    aiMessage st settled answer false])%list).
  { subst st'. rewrite (handleSendMessage_resolved _ _ _ _ _ Ht).
    unfold setIsLoading. cbn [messages].
    rewrite (process_messages _ _ _ _ _ Hs). rewrite Htext.
    unfold awaiting. cbn [messages]. rewrite <- app_assoc. reflexivity. }
  split; [exact Hlog|]. rewrite Hlog.
  split; [rewrite length_app; reflexivity|].
  split.
  { rewrite skipn_app, skipn_all, Nat.sub_diag. reflexivity. }
  subst st'. rewrite (handleSendMessage_resolved _ _ _ _ _ Ht).
  unfold setIsLoading.
  cbn [messages sessionId currentWeather currentLocation].
  rewrite (process_sessionId _ _ _ _ _ Hs).
  rewrite (process_currentWeather _ _ _ _ _ Hs).
  rewrite (process_currentLocation _ _ _ _ _ Hs).
  repeat split.
  change (session_id answer) with (Some "abc123").
  cbn [Js.truthy_opt_string Js.truthy_string andb].
  destruct (Js.strict_neq (Some "abc123") (sessionId st)) eqn:Hneq;
    [reflexivity|].
  unfold awaiting. cbn [sessionId].
  symmetry. apply strict_neq_false. exact Hneq.
Qed.

Lemma tokyo_scenario_witness :
  messageText typed None = question
  /\ map type (messages afterTokyo) = [user; location_change; assistant]
  /\ sessionId afterTokyo = Some "abc123"
  /\ currentWeather afterTokyo = Some sunny.
Proof.
  assert (Htext : messageText typed None = question)
    by (vm_compute; reflexivity).
  split; [exact Htext|].
  destruct (tokyo_scenario typed 1000 1200 None "東京は晴れです。" sunny Htext)
    as [Hlog [_ [_ [Hsession [Hweather _]]]]].
  split; [|split; [exact Hsession | exact Hweather]].
  unfold afterTokyo. rewrite Hlog. reflexivity.
Defined.

End ChatFacts.

(** ** More on validation and on the upload form *)

Module UploadFacts.

Import Api Hook.

(** A blob of [n] zero bytes. *)
Lemma size_repeat (n : nat) (type : string) :
  size (mkBlob (repeat Byte.x00 n) type) = Z.of_nat n.
Proof. unfold size. cbn [blob_data]. rewrite repeat_length. reflexivity. Qed.

(** X1: a buffer larger than the 500 MiB ceiling is invalid with exactly
    one error, the too-large message carrying its size in MB to one
    decimal; it gets no small-size warning, and at most the type
    warning. *)
Theorem oversized_buffer_rejected (b : Blob) :
  maxSize < size b ->
  valid (validateAudioBlob (Some b)) = false
  /\ errors (validateAudioBlob (Some b))
     = ["Audio file too large: " ++ Js.toFixed1_MiB (size b)
        ++ "MB (max: 500MB)"]
  /\ ~ In smallWarning (warnings (validateAudioBlob (Some b)))
  /\ (warnings (validateAudioBlob (Some b)) = []
      \/ warnings (validateAudioBlob (Some b))
         = [typeWarning (blob_type b)]).
Proof.
  intro Hbig. unfold maxSize in Hbig.
  assert (Hnz : size b <> 0) by lia.
  rewrite ApiFacts.valid_by_size, ApiFacts.errors_by_size.
  rewrite (ApiFacts.warnings_of_nonempty b Hnz).
  destruct (Z.eqb_spec (size b) 0) as [Hz | _]; [contradiction|].
  destruct (Z.gtb_spec (size b) maxSize) as [_ | Hle];
    [|unfold maxSize in Hle; lia].
  destruct (Z.ltb_spec (size b) 1024) as [Hlt | _]; [lia|].
  split; [reflexivity|]. split; [reflexivity|].
  destruct (negb (existsb (fun type => Js.includes (blob_type b) type)
                    supportedTypes)); cbn [app].
  - split; [|right; reflexivity].
    intros [Heq | []]. discriminate Heq.
  - split; [intros [] | left; reflexivity].
Qed.

Lemma oversized_buffer_rejected_witness :
  maxSize < size (mkBlob (repeat Byte.x00 (Z.to_nat 524288001)) "audio/wav")
  /\ errors (validateAudioBlob
               (Some (mkBlob (repeat Byte.x00 (Z.to_nat 524288001))
                        "audio/wav")))
     = ["Audio file too large: 500.0MB (max: 500MB)"].
Proof.
  assert (Hsize : size (mkBlob (repeat Byte.x00 (Z.to_nat 524288001))
                          "audio/wav") = 524288001).
  { rewrite size_repeat. apply Z2Nat.id. lia. }
  assert (Hbig : maxSize < size (mkBlob (repeat Byte.x00
                                           (Z.to_nat 524288001))
                                   "audio/wav")).
  { rewrite Hsize. reflexivity. }
  split; [exact Hbig|].
  destruct (oversized_buffer_rejected _ Hbig) as [_ [Herr _]].
  rewrite Herr, Hsize. reflexivity.
Defined.

(** X2: a buffer of at least 1 KiB and at most 500 MiB whose declared type
    contains one of the supported types passes cleanly: valid, no warning,
    no error.  Both bounds are inclusive. *)
Theorem regular_buffer_passes_cleanly (b : Blob) :
  1024 <= size b <= maxSize ->
  existsb (fun type => Js.includes (blob_type b) type) supportedTypes = true ->
  validateAudioBlob (Some b) = mkValidation true [] [].
Proof.
  intros [Hlo Hhi] Htype. unfold validateAudioBlob.
  destruct (Z.eqb_spec (size b) 0) as [Hz | _]; [lia|].
  destruct (Z.gtb_spec (size b) maxSize) as [Hbig | _]; [lia|].
  destruct (Z.ltb_spec (size b) 1024) as [Hlt | _]; [lia|].
  rewrite Htype. reflexivity.
Qed.

Lemma regular_buffer_passes_cleanly_witness :
  validateAudioBlob
    (Some (mkBlob (repeat Byte.x00 1024) "audio/webm;codecs=opus"))
  = mkValidation true [] [].
Proof.
  apply regular_buffer_passes_cleanly.
  - rewrite size_repeat. unfold maxSize. lia.
  - vm_compute. reflexivity.
Defined.

(** The three types [startRecording] can negotiate. *)
Lemma selectMimeType_cases (sup : string -> bool) :
  selectMimeType sup = "audio/webm;codecs=opus"
  \/ selectMimeType sup = "audio/wav"
  \/ selectMimeType sup = "audio/webm".
Proof.
  unfold selectMimeType.
  destruct (sup "audio/webm;codecs=opus"); [left; reflexivity|].
  destruct (sup "audio/wav"); [right; left | right; right]; reflexivity.
Qed.

(** X3: whatever the platform supports, the type [startRecording]
    negotiates is one [validateAudioBlob] accepts, so a recorded blob
    gets no type warning (its only possible warning is the small-size
    one), and [createVoiceFormData] names it [recording.wav] exactly when
    WAV was negotiated and [recording.webm] otherwise. *)
Theorem negotiated_type_is_accepted
    (sup : string -> bool) (data : list Byte.byte) (o : VoiceOptions) :
  let b := mkBlob data (selectMimeType sup) in
  warnings (validateAudioBlob (Some b))
  = (if (0 <? size b) && (size b <? 1024) then [smallWarning] else [])
  /\ get_all (createVoiceFormData b o) "audio"
     = [FileValue b (if String.eqb (selectMimeType sup) "audio/wav"
                     then "recording.wav" else "recording.webm")].
Proof.
  intro b.
  assert (Hacc : existsb (fun type => Js.includes (blob_type b) type)
                   supportedTypes = true
                 /\ Js.includes (blob_type b) "webm"
                    = negb (String.eqb (selectMimeType sup) "audio/wav")).
  { subst b. cbn [blob_type].
    destruct (selectMimeType_cases sup) as [-> | [-> | ->]];
      split; vm_compute; reflexivity. }
  destruct Hacc as [Hsupp Hwebm]. split.
  - destruct (Z.eqb_spec (size b) 0) as [Hz | Hnz].
    + unfold validateAudioBlob. rewrite Hz. reflexivity.
    + rewrite (ApiFacts.warnings_of_nonempty b Hnz), Hsupp.
      pose proof (ApiFacts.size_nonneg b) as Hge.
      destruct (Z.ltb_spec 0 (size b)) as [_ | Hle]; [|lia].
      cbn. rewrite app_nil_r. reflexivity.
  - rewrite RequestFacts.createVoiceFormData_audio, Hwebm.
    destruct (String.eqb (selectMimeType sup) "audio/wav"); reflexivity.
Qed.

End UploadFacts.

(** ** The recording session *)

Module SessionFacts.

Import Api Backend Hook HookSession.

(** Runs the hook's setters on a state given by its fields. *)
Ltac run_hook :=
  unfold seq, when, skip, setIsRecording, setIsProcessing, setTranscript,
    setConfidence, setError, setMediaRecorderRef, setAudioChunksRef,
    setStreamRef, setLiveStreams, setPosted, setIsSupported;
  cbn [fold_left isRecording isProcessing transcript confidence error
       isSupported mediaRecorderRef audioChunksRef streamRef liveStreams
       posted].

(** *** Starting *)

(** When the support check passes, one of the candidate types is
    supported, and so is the type the negotiation picks. *)
Lemma checkSupport_passes (g : bool) (sup : string -> bool) (h : HookState) :
  isSupported h = true ->
  isSupported (checkSupport g sup h) = true ->
  checkSupport g sup h = h /\ sup (selectMimeType sup) = true.
Proof.
  intros Hh. unfold checkSupport, selectMimeType.
  destruct g; cbn [negb]; [|run_hook; discriminate].
  destruct (sup "audio/webm;codecs=opus") eqn:Hopus.
  - destruct (negb (sup "audio/webm") && negb (sup "audio/wav"));
      [run_hook; discriminate|].
    intros _. split; [reflexivity | exact Hopus].
  - destruct (sup "audio/webm") eqn:Hwebm; destruct (sup "audio/wav") eqn:Hwav;
      cbn [negb andb]; try (run_hook; discriminate);
      intros _; (split; [reflexivity | assumption]).
Qed.

(** X4: on a platform that passes the mount-time support check, the first
    [startRecording] with a granted stream always starts: the negotiated
    type is one the platform records, so the recorder is created and
    recording with that type, the stream is held and live, the buffer is
    empty and no error is set. *)
Theorem supported_platform_starts
    (g : bool) (sup : string -> bool) (stream : MediaStream) :
  let mounted := checkSupport g sup initial in
  isSupported mounted = true ->
  let h := startRecording mounted sup (Granted stream) mounted in
  sup (selectMimeType sup) = true
  /\ isRecording h = true
  /\ mediaRecorderRef h = Some (mkRecorder (selectMimeType sup) recording false)
  /\ streamRef h = Some stream
  /\ liveStreams h = [stream_id stream]
  /\ audioChunksRef h = []
  /\ error h = None.
Proof.
  intros mounted Hsup.
  destruct (checkSupport_passes g sup initial eq_refl Hsup) as [Hsame Hmime].
  subst mounted. rewrite Hsame. unfold startRecording. cbn.
  rewrite Hmime. cbn. repeat split.
Qed.

Lemma supported_platform_starts_witness :
  isSupported (checkSupport true Scenarios.wavOnly initial) = true
  /\ mediaRecorderRef
       (startRecording (checkSupport true Scenarios.wavOnly initial)
          Scenarios.wavOnly (Granted (mkStream 1))
          (checkSupport true Scenarios.wavOnly initial))
     = Some (mkRecorder "audio/wav" recording false).
Proof.
  assert (Hsup : isSupported (checkSupport true Scenarios.wavOnly initial)
                 = true) by reflexivity.
  split; [exact Hsup|].
  destruct (supported_platform_starts true Scenarios.wavOnly (mkStream 1)
              Hsup) as [_ [_ [Href _]]].
  exact Href.
Defined.

(** [startRecording] on an idle controller, by what the platform does. *)
Lemma startRecording_idle_refused tr conf err ref chunks sref live sent
    (sup : string -> bool) (name : string) :
  let h := mkHook false false tr conf err true ref chunks sref live sent in
  startRecording h sup (Refused name) h
  = mkHook false false "" 0%Q (Some (startErrorMessage name)) true ref chunks
      sref live sent.
Proof. reflexivity. Qed.

Lemma startRecording_idle_granted tr conf err ref chunks sref live sent
    (sup : string -> bool) (stream : MediaStream) :
  sup (selectMimeType sup) = true ->
  let h := mkHook false false tr conf err true ref chunks sref live sent in
  startRecording h sup (Granted stream) h
  = mkHook true false "" 0%Q None true
      (Some (mkRecorder (selectMimeType sup) recording false)) []
      (Some stream) (live ++ [stream_id stream])%list sent.
Proof.
  intro Hmime. unfold startRecording. cbn. rewrite Hmime. reflexivity.
Qed.

(** X5: when the microphone is refused, an idle controller stays idle,
    holds no stream and creates no recorder, and reports the message
    chosen by the error's name; nothing blocks the next attempt, which
    starts recording once a stream is granted. *)
Theorem refused_microphone_can_retry
    (h : HookState) (sup : string -> bool) (name : string)
    (stream : MediaStream) :
  isSupported h = true -> isRecording h = false -> isProcessing h = false ->
  sup (selectMimeType sup) = true ->
  let refused := startRecording h sup (Refused name) h in
  (isRecording refused = false /\ isProcessing refused = false
   /\ error refused = Some (startErrorMessage name)
   /\ streamRef refused = streamRef h
   /\ liveStreams refused = liveStreams h
   /\ mediaRecorderRef refused = mediaRecorderRef h
   /\ posted refused = posted h)
  /\ isRecording (startRecording refused sup (Granted stream) refused) = true
  /\ error (startRecording refused sup (Granted stream) refused) = None.
Proof.
  intros Hs Hr Hp Hmime.
  destruct h as [rec proc tr conf err supd ref chunks sref live sent].
  cbn in Hs, Hr, Hp. subst supd rec proc. cbv zeta.
  rewrite (startRecording_idle_refused tr conf err ref chunks sref live sent
             sup name).
  rewrite (startRecording_idle_granted "" 0%Q
             (Some (startErrorMessage name)) ref chunks sref live sent sup
             stream Hmime).
  cbn [isRecording isProcessing error streamRef liveStreams mediaRecorderRef
       posted].
  repeat split.
Qed.

Lemma refused_microphone_can_retry_witness :
  error (startRecording initial (fun _ => true) (Refused "NotAllowedError")
           initial)
  = Some "マイクへのアクセスが拒否されました。ブラウザの設定を確認してください".
Proof.
  apply (refused_microphone_can_retry initial (fun _ => true)
           "NotAllowedError" (mkStream 1) eq_refl eq_refl eq_refl eq_refl).
Defined.



(** *** Stopping and uploading *)

Lemma newBlob_data (parts : list Blob) (type : string) :
  blob_data (newBlob parts type) = List.concat (map blob_data parts).
Proof. reflexivity. Qed.

(** An empty last chunk adds nothing to the assembled blob. *)
Lemma newBlob_empty_last (parts : list Blob) (final : Blob) (type : string) :
  size final = 0 -> newBlob (parts ++ [final]) type = newBlob parts type.
Proof.
  intro Hz. apply ApiFacts.size_zero_iff_no_data in Hz.
  unfold newBlob. rewrite map_app, concat_app. cbn. rewrite Hz.
  rewrite !app_nil_r. reflexivity.
Qed.

(** X7: stopping an active recording and dispatching the recorder's
    events uploads the whole recording once: the posted audio is the
    concatenation, in order, of the buffered chunks and the last one,
    typed with the recorder's MIME type; the controller is then
    processing, no longer recording, and the stream is released. *)
Theorem stop_uploads_whole_recording
    (h : HookState) (mime : string) (final : Blob) :
  isRecording h = true ->
  mediaRecorderRef h = Some (mkRecorder mime recording false) ->
  0 < size (newBlob (audioChunksRef h ++ [final]) mime) ->
  let h' := dispatchStop final (stopRecording h h) in
  posted h'
  = (posted h
     ++ [processAudioFormData
           (newBlob (audioChunksRef h ++ [final]) mime)])%list
  /\ isRecording h' = false
  /\ isProcessing h' = true
  /\ streamRef h' = None
  /\ mediaRecorderRef h' = Some (mkRecorder mime inactive false).
Proof.
  intros Hrec Href Hpos.
  destruct h as [rec proc tr conf err sup ref chunks sref live sent].
  cbn in Hrec, Href, Hpos. subst rec ref.
  unfold stopRecording, dispatchStop, stopCurrentRecorder. cbn.
  unfold ondataavailable. cbn [audioChunksRef].
  destruct (Z.gtb_spec (size final) 0) as [Hgt | Hle].
  - assert (Hnz : (size (newBlob (chunks ++ [final]) mime) =? 0) = false)
      by (apply Z.eqb_neq; lia).
    unfold onstop. destruct sref as [s|]; cbn; rewrite Hnz; cbn;
      repeat split.
  - assert (Hz : size final = 0)
      by (pose proof (ApiFacts.size_nonneg final); lia).
    rewrite (newBlob_empty_last chunks final mime Hz) in Hpos |- *.
    assert (Hnz : (size (newBlob chunks mime) =? 0) = false)
      by (apply Z.eqb_neq; lia).
    unfold onstop. destruct sref as [s|]; cbn; rewrite Hnz; cbn;
      repeat split.
Qed.

Lemma stop_uploads_whole_recording_witness :
  posted (dispatchStop Scenarios.lastChunk
            (stopRecording
               (ondataavailable Scenarios.firstChunk Scenarios.started)
               (ondataavailable Scenarios.firstChunk Scenarios.started)))
  = [processAudioFormData
       (newBlob [Scenarios.firstChunk; Scenarios.lastChunk]
          "audio/webm;codecs=opus")].
Proof.
  apply (stop_uploads_whole_recording
           (ondataavailable Scenarios.firstChunk Scenarios.started)
           "audio/webm;codecs=opus" Scenarios.lastChunk).
  - reflexivity.
  - reflexivity.
  - vm_compute. reflexivity.
Defined.

(** X8: [onstop] releases the stream on every path, also when the
    recording turns out empty and nothing is uploaded: afterwards no
    stream is referenced and the tracks of the one that was are
    stopped. *)
Theorem onstop_always_releases_stream
    (mime : string) (h : HookState) (s : MediaStream) :
  streamRef h = Some s ->
  streamRef (onstop mime h) = None
  /\ ~ In (stream_id s) (liveStreams (onstop mime h))
  /\ isRecording (onstop mime h) = false.
Proof.
  intro Hs.
  destruct h as [rec proc tr conf err sup ref chunks sref live sent].
  cbn in Hs. subst sref. unfold onstop. cbn.
  destruct (size (newBlob chunks mime) =? 0); cbn; repeat split;
    intro Hin; apply filter_In in Hin; destruct Hin as [_ Hne];
    rewrite Nat.eqb_refl in Hne; discriminate Hne.
Qed.

Lemma onstop_always_releases_stream_witness :
  streamRef (onstop "audio/webm;codecs=opus" Scenarios.silent) = None
  /\ liveStreams (onstop "audio/webm;codecs=opus" Scenarios.silent) = [].
Proof.
  destruct (onstop_always_releases_stream "audio/webm;codecs=opus"
              Scenarios.silent (mkStream 1) eq_refl) as [Href _].
  split; [exact Href | reflexivity].
Defined.

(** When the settled upload hands a result to the view. *)
Lemma settle_emitted
    (installed : bool) (outcome : FetchOutcome) (h : HookState)
    (r : VoiceResult) :
  snd (processAudioWithBackend_settle installed outcome h) = Some r
  <-> installed = true /\ outcome = Ok r
      /\ Js.truthy_opt_bool (vr_success r) = true.
Proof.
  unfold processAudioWithBackend_settle.
  destruct outcome as [message | status | r0]; cbn.
  - split; [discriminate | intros [_ [H _]]; discriminate H].
  - split; [discriminate | intros [_ [H _]]; discriminate H].
  - destruct (Js.truthy_opt_bool (vr_success r0)) eqn:Hs;
      destruct installed; cbn; split.
    + intro H. injection H as <-. auto.
    + intros [_ [H _]]. injection H as <-. reflexivity.
    + discriminate.
    + intros [H _]. discriminate H.
    + discriminate.
    + intros [_ [H Ht]]. injection H as <-. congruence.
    + discriminate.
    + intros [H _]. discriminate H.
Qed.

(** X9: however the upload settles, the controller leaves the processing
    state, nothing is posted again, and the buffer, the stream and the
    recording flag are untouched.  The result is handed to the view
    exactly when the response is successful and the view's handler is
    installed, in which case the transcript and confidence are those of
    the response and the error is untouched; otherwise the error is set
    to a processing error and the transcript is kept. *)
Theorem upload_settlement
    (installed : bool) (outcome : FetchOutcome) (h : HookState) :
  let h' := fst (processAudioWithBackend_settle installed outcome h) in
  let emitted := snd (processAudioWithBackend_settle installed outcome h) in
  isProcessing h' = false
  /\ posted h' = posted h
  /\ audioChunksRef h' = audioChunksRef h
  /\ streamRef h' = streamRef h
  /\ isRecording h' = isRecording h
  /\ (forall r : VoiceResult,
         emitted = Some r
         <-> installed = true /\ outcome = Ok r
             /\ Js.truthy_opt_bool (vr_success r) = true)
  /\ match outcome with
     | Ok r =>
       if Js.truthy_opt_bool (vr_success r)
       then transcript h' = tr_transcript (transcription r)
            /\ confidence h' = tr_confidence (transcription r)
            /\ error h' = error h
       else error h'
            = Some (processingError
                      (Js.or_string (vr_error r) "音声処理に失敗しました"))
            /\ transcript h' = transcript h
     | NetworkError message =>
       error h' = Some (processingError message)
       /\ transcript h' = transcript h
     | HttpStatus status =>
       error h'
       = Some (processingError
                 ("HTTP error! status: " ++ Js.string_of_nonneg status))
       /\ transcript h' = transcript h
     end.
Proof.
  split; [|split; [|split; [|split; [|split; [|split]]]]];
    try (intro r; apply settle_emitted);
    unfold processAudioWithBackend_settle;
    destruct outcome as [message | status | r0];
    try destruct (Js.truthy_opt_bool (vr_success r0));
    cbn; repeat split.
Qed.

(** *** Over every run *)

(** What each handler does to the posted forms and to the buffer. *)
Lemma startRecording_frame rendered sup media h :
  posted (startRecording rendered sup media h) = posted h
  /\ (audioChunksRef (startRecording rendered sup media h) = audioChunksRef h
      \/ audioChunksRef (startRecording rendered sup media h) = []).
Proof.
  unfold startRecording.
  destruct (negb (isSupported rendered) || isRecording rendered
            || isProcessing rendered); [split; [|left]; reflexivity|].
  destruct media as [stream | name]; [|split; [|left]; reflexivity].
  cbv zeta. destruct (sup (selectMimeType sup));
    split; try reflexivity; [right | left]; reflexivity.
Qed.

Lemma stopRecording_frame rendered h :
  posted (stopRecording rendered h) = posted h
  /\ audioChunksRef (stopRecording rendered h) = audioChunksRef h.
Proof.
  unfold stopRecording, stopCurrentRecorder.
  destruct (negb (isRecording rendered)
            || negb (Js.truthy_opt_obj (mediaRecorderRef h)));
    [split; reflexivity|].
  destruct (mediaRecorderRef h); split; reflexivity.
Qed.

Lemma cancelRecording_frame rendered h :
  posted (cancelRecording rendered h) = posted h.
Proof.
  destruct h as [rec proc tr conf err sup [r|] chunks [s|] live sent];
    unfold cancelRecording; cbn; destruct (isRecording rendered);
    reflexivity.
Qed.

Lemma ondataavailable_frame data h :
  posted (ondataavailable data h) = posted h
  /\ (audioChunksRef (ondataavailable data h) = audioChunksRef h
      \/ (0 < size data
          /\ audioChunksRef (ondataavailable data h)
             = (audioChunksRef h ++ [data])%list)).
Proof.
  unfold ondataavailable.
  destruct (Z.gtb_spec (size data) 0) as [Hgt | Hle]; split;
    try reflexivity; [right; split; [lia | reflexivity] | left; reflexivity].
Qed.

Lemma onstop_frame mime h :
  audioChunksRef (onstop mime h) = audioChunksRef h
  /\ (posted (onstop mime h) = posted h
      \/ exists b : Blob,
           0 < size b
           /\ posted (onstop mime h)
              = (posted h ++ [processAudioFormData b])%list).
Proof.
  destruct h as [rec proc tr conf err sup ref chunks [s|] live sent];
    unfold onstop; cbn;
    destruct (Z.eqb_spec (size (newBlob chunks mime)) 0) as [Hz | Hnz];
    (split; [reflexivity|]); try (left; reflexivity);
    right; exists (newBlob chunks mime);
    (split; [pose proof (ApiFacts.size_nonneg (newBlob chunks mime)); lia
            | reflexivity]).
Qed.

Lemma dispatchStop_frame final h :
  (audioChunksRef (dispatchStop final h) = audioChunksRef h
   \/ (0 < size final
       /\ audioChunksRef (dispatchStop final h)
          = (audioChunksRef h ++ [final])%list))
  /\ (posted (dispatchStop final h) = posted h
      \/ exists b : Blob,
           0 < size b
           /\ posted (dispatchStop final h)
              = (posted h ++ [processAudioFormData b])%list).
Proof.
  unfold dispatchStop.
  destruct (mediaRecorderRef h) as [[mime st q]|] eqn:Href;
    [|split; left; reflexivity].
  cbn [stopQueued]. destruct q; [|split; left; reflexivity].
  cbn [seq fold_left mimeType state].
  set (h1 := setMediaRecorderRef (Some (mkRecorder mime st false)) h).
  destruct (onstop_frame mime (ondataavailable final h1)) as [Hc Hp].
  destruct (ondataavailable_frame final h1) as [Hp' Hc'].
  rewrite Hc. rewrite Hp' in Hp. split; assumption.
Qed.

Lemma step_frame (h : HookState) (e : Event) :
  (audioChunksRef (step h e) = audioChunksRef h
   \/ audioChunksRef (step h e) = []
   \/ exists data : Blob,
        0 < size data
        /\ audioChunksRef (step h e)
           = (audioChunksRef h ++ [data])%list)
  /\ (posted (step h e) = posted h
      \/ exists b : Blob,
           0 < size b
           /\ posted (step h e)
              = (posted h ++ [processAudioFormData b])%list).
Proof.
  destruct e as [sup media | | | | sup media | data | final | message
                 | installed outcome]; cbn [step].
  - destruct (startRecording_frame h sup media h) as [Hp [Hc | Hc]];
      rewrite Hp, Hc; auto.
  - destruct (stopRecording_frame h h) as [Hp Hc]. rewrite Hp, Hc. auto.
  - rewrite cancelRecording_frame.
    destruct (HookFacts.cancelRecording_resets h h) as [_ [Hc _]].
    cbv zeta in Hc. rewrite Hc. auto.
  - auto.
  - unfold handleVoiceToggle.
    destruct (isRecording h);
      [destruct (stopRecording_frame h h) as [Hp Hc]; rewrite Hp, Hc; auto|].
    destruct (isProcessing h); [auto|].
    destruct (startRecording_frame h sup media h) as [Hp [Hc | Hc]];
      rewrite Hp, Hc; auto.
  - destruct (ondataavailable_frame data h) as [Hp [Hc | [Hpos Hc]]];
      rewrite Hp, Hc; [auto|].
    split; [right; right; exists data; auto | auto].
  - destruct (dispatchStop_frame final h) as [[Hc | [Hpos Hc]] Hp].
    + rewrite Hc. auto.
    + rewrite Hc. split; [right; right; exists final; auto | exact Hp].
  - auto.
  - destruct (upload_settlement installed outcome h)
      as [_ [Hp [Hc _]]].
    cbv zeta in Hp, Hc. rewrite Hp, Hc. auto.
Qed.

(** X10: over any sequence of events, from any state, the forms posted to
    the voice endpoint only grow at the end, and every form added is the
    hook's two-field form around a non-empty audio blob: an empty
    recording is never uploaded and nothing already posted is changed. *)
Theorem uploads_append_only_and_non_empty
    (events : list Event) (h : HookState) :
  exists more : list FormData,
    posted (run events h) = (posted h ++ more)%list
    /\ Forall audioUpload more.
Proof.
  revert h. induction events as [|e events IH]; intro h.
  - exists []. split; [symmetry; apply app_nil_r | constructor].
  - cbn [run fold_left]. fold (run events (step h e)).
    destruct (IH (step h e)) as [more [Hrun Hall]].
    destruct (step_frame h e) as [_ [Hp | [b [Hpos Hp]]]].
    + exists more. rewrite Hrun, Hp. split; [reflexivity | exact Hall].
    + exists (processAudioFormData b :: more).
      rewrite Hrun, Hp, <- app_assoc. split; [reflexivity|].
      constructor; [exists b; split; [exact Hpos | reflexivity] | exact Hall].
Qed.

(** X11: in every state reached from the first render, each buffered
    chunk is non-empty; hence the blob [onstop] assembles is empty
    exactly when no chunk was buffered. *)
Theorem buffered_chunks_non_empty (events : list Event) (mime : string) :
  Forall (fun chunk => 0 < size chunk)
    (audioChunksRef (run events initial))
  /\ (size (newBlob (audioChunksRef (run events initial)) mime) = 0
      <-> audioChunksRef (run events initial) = []).
Proof.
  assert (Hinv : forall es h,
             Forall (fun chunk => 0 < size chunk) (audioChunksRef h) ->
             Forall (fun chunk => 0 < size chunk)
               (audioChunksRef (run es h))).
  { induction es as [|e es IH]; intros h Hh; [exact Hh|].
    cbn [run fold_left]. fold (run es (step h e)). apply IH.
    destruct (step_frame h e) as [[Hc | [Hc | [d [Hpos Hc]]]] _];
      rewrite Hc; [exact Hh | constructor|].
    apply Forall_app. split; [exact Hh | constructor; [exact Hpos|]].
    constructor. }
  pose proof (Hinv events initial (Forall_nil _)) as Hall.
  split; [exact Hall|].
  destruct (audioChunksRef (run events initial)) as [|c rest].
  - split; reflexivity.
  - split; [|discriminate]. intro Hz.
    apply Forall_inv in Hall. unfold size, newBlob in *.
    cbn in Hz. rewrite length_app in Hz. lia.
Qed.

(** X12: a recorder error makes the controller idle and reports the
    error, but releases nothing: the stream stays referenced and live.
    A recording started afterwards replaces the reference, and the first
    stream, no longer reachable from the hook, still has live tracks. *)
Theorem recorder_error_keeps_stream
    (h : HookState) (message : option string) (s : MediaStream) :
  streamRef h = Some s -> In (stream_id s) (liveStreams h) ->
  let failed := onerror message h in
  (isRecording failed = false /\ isProcessing failed = false
   /\ error failed
      = Some ("録音エラー: " ++ Js.or_string message "不明なエラー")
   /\ streamRef failed = Some s
   /\ liveStreams failed = liveStreams h
   /\ audioChunksRef failed = audioChunksRef h)
  /\ (forall (sup : string -> bool) (s' : MediaStream),
         isSupported h = true -> sup (selectMimeType sup) = true ->
         let again := startRecording failed sup (Granted s') failed in
         isRecording again = true
         /\ streamRef again = Some s'
         /\ In (stream_id s) (liveStreams again)
         /\ In (stream_id s') (liveStreams again)).
Proof.
  intros Hs Hlive.
  destruct h as [rec proc tr conf err supd ref chunks sref live sent].
  cbn in Hs, Hlive. subst sref. split.
  - repeat split.
  - intros sup s' Hsup Hmime. cbn in Hsup. subst supd.
    unfold startRecording. cbn. rewrite Hmime. cbn. repeat split.
    + apply in_or_app. left. exact Hlive.
    + apply in_or_app. right. left. reflexivity.
Qed.

Lemma recorder_error_keeps_stream_witness :
  isRecording (onerror None Scenarios.started) = false
  /\ streamRef (onerror None Scenarios.started) = Some (mkStream 1)
  /\ liveStreams (onerror None Scenarios.started) = [1%nat].
Proof.
  destruct (recorder_error_keeps_stream Scenarios.started None (mkStream 1)
              eq_refl (or_introl eq_refl))
    as [[Hrec [_ [_ [Href [Hlive _]]]]] _].
  split; [exact Hrec|]. split; [exact Href | exact Hlive].
Defined.

(** X27: while a recording or an upload is in progress, neither
    [startRecording] nor the voice button acquires a microphone stream or
    replaces the recorder: [startRecording] changes nothing, and the
    button stops the recording or, during the upload, does nothing at
    all (the upload is not cancelled). *)
Theorem busy_controller_takes_no_stream
    (h : HookState) (sup : string -> bool) (media : UserMedia) :
  isRecording h || isProcessing h = true ->
  step h (StartRecording sup media) = h
  /\ liveStreams (step h (VoiceToggle sup media)) = liveStreams h
  /\ streamRef (step h (VoiceToggle sup media)) = streamRef h
  /\ posted (step h (VoiceToggle sup media)) = posted h
  /\ (isRecording h = false -> step h (VoiceToggle sup media) = h)
  /\ (isRecording h = true ->
      step h (VoiceToggle sup media) = stopRecording h h).
Proof.
  intro Hbusy. cbn [step]. unfold handleVoiceToggle, startRecording.
  destruct (isRecording h) eqn:Hr; destruct (isProcessing h) eqn:Hp;
    try discriminate Hbusy; rewrite ?orb_true_r; cbn [orb];
    repeat split; try reflexivity; try discriminate;
    unfold stopRecording, stopCurrentRecorder; rewrite Hr; cbn [negb orb];
    destruct (mediaRecorderRef h); reflexivity.
Qed.

Lemma busy_controller_takes_no_stream_witness :
  step Scenarios.started
    (StartRecording (fun _ => true) (Granted (mkStream 2)))
  = Scenarios.started.
Proof.
  apply (busy_controller_takes_no_stream Scenarios.started (fun _ => true)
           (Granted (mkStream 2))).
  reflexivity.
Defined.

(** A platform that failed the support check never gets going. *)
Lemma unsupported_step (h : HookState) (e : Event) :
  isSupported h = false /\ isRecording h = false
  /\ mediaRecorderRef h = None /\ streamRef h = None
  /\ liveStreams h = [] /\ posted h = [] ->
  isSupported (step h e) = false /\ isRecording (step h e) = false
  /\ mediaRecorderRef (step h e) = None /\ streamRef (step h e) = None
  /\ liveStreams (step h e) = [] /\ posted (step h e) = [].
Proof.
  intros [Hs [Hr [Hm [Hst [Hl Hp]]]]].
  destruct h as [rec proc tr conf err sup ref chunks sref live sent].
  cbn in Hs, Hr, Hm, Hst, Hl, Hp. subst sup rec ref sref live sent.
  destruct e as [sup media | | | | sup media | data | final | message
                 | installed outcome]; cbn [step].
  - repeat split.
  - repeat split.
  - repeat split.
  - repeat split.
  - unfold handleVoiceToggle. cbn. destruct proc; repeat split.
  - unfold ondataavailable. destruct (size data >? 0); repeat split.
  - repeat split.
  - repeat split.
  - unfold processAudioWithBackend_settle.
    destruct outcome as [m | status | r];
      try destruct (Js.truthy_opt_bool (vr_success r)); repeat split.
Qed.

(** X28: on a platform that fails the mount-time support check (no
    [getUserMedia], or neither WebM nor WAV recordable), the hook reports
    itself unsupported, and whatever is called or delivered afterwards it
    never records, never holds a stream and never posts anything. *)
Theorem unsupported_platform_never_records
    (g : bool) (sup : string -> bool) (events : list Event) :
  g = false \/ (sup "audio/webm" = false /\ sup "audio/wav" = false) ->
  let mounted := checkSupport g sup initial in
  let h := run events mounted in
  error mounted <> None
  /\ isSupported h = false
  /\ isRecording h = false
  /\ streamRef h = None
  /\ liveStreams h = []
  /\ posted h = [].
Proof.
  intros Hfail mounted h.
  assert (Hm : isSupported mounted = false /\ isRecording mounted = false
               /\ mediaRecorderRef mounted = None /\ streamRef mounted = None
               /\ liveStreams mounted = [] /\ posted mounted = []
               /\ error mounted <> None).
  { subst mounted. unfold checkSupport.
    destruct Hfail as [-> | [Hw Hv]].
    - cbn. repeat split. discriminate.
    - destruct g; [rewrite Hw, Hv|]; cbn; repeat split; discriminate. }
  destruct Hm as [H1 [H2 [H3 [H4 [H5 [H6 H7]]]]]].
  split; [exact H7|].
  assert (Hrun : forall es h0,
             isSupported h0 = false /\ isRecording h0 = false
             /\ mediaRecorderRef h0 = None /\ streamRef h0 = None
             /\ liveStreams h0 = [] /\ posted h0 = [] ->
             isSupported (run es h0) = false
             /\ isRecording (run es h0) = false
             /\ mediaRecorderRef (run es h0) = None
             /\ streamRef (run es h0) = None
             /\ liveStreams (run es h0) = [] /\ posted (run es h0) = []).
  { induction es as [|e es IH]; intros h0 Hh0; [exact Hh0|].
    cbn [run fold_left]. fold (run es (step h0 e)).
    apply IH. apply unsupported_step. exact Hh0. }
  destruct (Hrun events mounted) as [K1 [K2 [_ [K4 [K5 K6]]]]];
    [repeat split; assumption|].
  subst h. repeat split; assumption.
Qed.

Lemma unsupported_platform_never_records_witness :
  posted (run [VoiceToggle (fun _ => false) (Granted (mkStream 1));
               DataAvailable Scenarios.firstChunk;
               StopRecording;
               StopDispatched Scenarios.lastChunk]
            (checkSupport true (fun _ => false) initial))
  = [].
Proof.
  apply (unsupported_platform_never_records true (fun _ => false)).
  right. split; reflexivity.
Defined.

End SessionFacts.

(** ** The view over its events *)

Module ViewFacts.

Import Backend Chat ChatView ChatFacts.

(** *** One step *)

Lemma process_log rendered now r v st :
  messages (processIntelligentChatResponse rendered now r v st)
  = (messages st ++ replyBlock rendered now r v)%list.
Proof.
  unfold replyBlock.
  destruct (Js.truthy_opt_bool (success r)) eqn:Hs.
  - apply process_messages. exact Hs.
  - rewrite (process_unsuccessful _ _ _ _ _ Hs). symmetry. apply app_nil_r.
Qed.

(** A processed response keeps the stored identifier or replaces it by a
    non-empty one. *)
Lemma process_session rendered now r v st :
  sessionId (processIntelligentChatResponse rendered now r v st) = sessionId st
  \/ exists s : string,
       s <> ""
       /\ sessionId (processIntelligentChatResponse rendered now r v st)
          = Some s.
Proof.
  destruct (Js.truthy_opt_bool (success r)) eqn:Hs.
  - rewrite (process_sessionId _ _ _ _ _ Hs).
    destruct (Js.truthy_opt_string (session_id r)) eqn:Ht; cbn [andb];
      [|left; reflexivity].
    destruct (Js.strict_neq (session_id r) (sessionId rendered));
      [|left; reflexivity].
    right. destruct (session_id r) as [s|]; [|discriminate Ht].
    exists s. split; [|reflexivity].
    intros ->. discriminate Ht.
  - rewrite (process_unsuccessful _ _ _ _ _ Hs). left. reflexivity.
Qed.

(** The whole text exchange, by cases. *)
Lemma handleSendMessage_log st sent settled message outcome :
  messages (handleSendMessage sent settled message outcome st)
  = (messages st
     ++ (if Js.truthy_string (messageText st message)
         then userMessage sent (messageText st message) None
              :: match sendMessage_outcome outcome with
                 | Resolved data => replyBlock st settled data false
                 | Rejected why => [errorMessage settled why]
                 end
         else []))%list.
Proof.
  destruct (Js.truthy_string (messageText st message)) eqn:Ht.
  - destruct outcome as [data | reason]; cbn [sendMessage_outcome].
    + rewrite (handleSendMessage_resolved _ _ _ _ _ Ht).
      unfold setIsLoading. cbn [messages]. rewrite process_log.
      unfold awaiting. cbn [messages]. rewrite <- app_assoc. reflexivity.
    + rewrite (handleSendMessage_rejected _ _ _ _ _ Ht). reflexivity.
  - rewrite (handleSendMessage_nothing _ _ _ _ _ Ht).
    symmetry. apply app_nil_r.
Qed.

Lemma handleVoiceProcessingResult_log rendered now vr st :
  messages (handleVoiceProcessingResult rendered now vr st)
  = (messages st
     ++ (if Js.truthy_opt_bool (vr_success vr)
         then userMessage now (tr_transcript (transcription vr))
                (Some (mkVoiceMetadata
                         (tr_confidence (transcription vr))
                         (tr_processing_time (transcription vr))
                         (tr_word_count (transcription vr))))
              :: replyBlock rendered now (voiceChatResponse vr) true
         else []))%list.
Proof.
  unfold handleVoiceProcessingResult.
  destruct (Js.truthy_opt_bool (vr_success vr)); cbn [negb].
  - cbn [seq fold_left]. rewrite process_log.
    unfold appendMessage. cbn [messages]. rewrite <- app_assoc. reflexivity.
  - unfold setError. cbn [messages]. symmetry. apply app_nil_r.
Qed.

(** *** Sending *)





(** X15: every text exchange that sends something ends with the spinner
    off and the input box empty, whatever the backend does.  If the call
    returns a response, any earlier error is cleared, also when the
    response is unsuccessful; if the call is rejected, the error is the
    rejection's reason, or the fixed fallback when the error body names
    none. *)
Theorem exchange_always_settles
    (st : ChatState) (sent settled : Z) (message : option string)
    (outcome : AxiosOutcome) :
  Js.truthy_string (messageText st message) = true ->
  let st' := handleSendMessage sent settled message outcome st in
  isLoading st' = false
  /\ inputText st' = ""
  /\ chat_error st'
     = match outcome with
       | AxiosOk _ => None
       | AxiosError reason =>
         Some (Js.or_string reason "チャット送信に失敗しました")
       end.
Proof.
  intros Ht st'. subst st'. destruct outcome as [data | reason].
  - rewrite (handleSendMessage_resolved _ _ _ _ _ Ht).
    unfold setIsLoading. cbn [isLoading inputText chat_error].
    destruct (Js.truthy_opt_bool (success data)) eqn:Hs.
    + revert Hs. process_cases st data; intros ->; repeat split.
    + rewrite (process_unsuccessful _ _ _ _ _ Hs). repeat split.
  - rewrite (handleSendMessage_rejected _ _ _ _ _ Ht). repeat split.
Qed.

Lemma exchange_always_settles_witness :
  isLoading Scenarios.afterRefusal = false
  /\ inputText Scenarios.afterRefusal = ""
  /\ chat_error Scenarios.afterRefusal = None.
Proof.
  apply (exchange_always_settles Scenarios.typed 1000 1200 None
           (AxiosOk Scenarios.refusal)).
  vm_compute. reflexivity.
Defined.

(** X16: the session identifier a successful response carries is the one
    the next request sends back: after such an exchange, whatever
    non-blank text is typed next, the request built for it has that
    identifier as its [session_id]. *)
Theorem session_id_round_trip
    (st : ChatState) (sent settled : Z) (message : option string)
    (data : ChatResponse) (s next : string) :
  Js.truthy_string (messageText st message) = true ->
  Js.truthy_opt_bool (success data) = true ->
  session_id data = Some s -> s <> "" ->
  Js.truthy_string (Js.trim next) = true ->
  let st' := handleSendMessage sent settled message (AxiosOk data) st in
  handleSendMessage_request (setInputText next st') None
  = Some (Api.chatAPI.sendMessage (Js.trim next) (Some s) "japanese").
Proof.
  intros Ht Hs Hid Hne Hnext st'.
  assert (Hstored : sessionId st' = Some s).
  { subst st'. rewrite (handleSendMessage_resolved _ _ _ _ _ Ht).
    unfold setIsLoading. cbn [sessionId].
    rewrite (process_sessionId _ _ _ _ _ Hs), Hid.
    assert (Htruthy : Js.truthy_opt_string (Some s) = true)
      by (destruct s; [contradiction Hne; reflexivity | reflexivity]).
    rewrite Htruthy. cbn [andb].
    destruct (Js.strict_neq (Some s) (sessionId st)) eqn:Hneq;
      [reflexivity|].
    unfold awaiting. cbn [sessionId].
    symmetry. apply strict_neq_false. exact Hneq. }
  unfold handleSendMessage_request, messageText, setInputText.
  cbn [inputText sessionId Js.or_string]. rewrite Hnext, Hstored.
  reflexivity.
Qed.

Lemma session_id_round_trip_witness :
  handleSendMessage_request
    (setInputText "大阪は？" Scenarios.afterTokyo) None
  = Some (Api.chatAPI.sendMessage "大阪は？" (Some "abc123") "japanese").
Proof.
  apply (session_id_round_trip Scenarios.typed 1000 1200 None
           (Scenarios.tokyoResponse "東京は晴れです。" Scenarios.sunny)
           "abc123" "大阪は？").
  - vm_compute. reflexivity.
  - reflexivity.
  - reflexivity.
  - discriminate.
  - vm_compute. reflexivity.
Defined.

(** *** Over every run *)

Lemma step_session (st : ChatState) (e : Event) :
  sessionId (step st e) = sessionId st
  \/ exists s : string, s <> "" /\ sessionId (step st e) = Some s.
Proof.
  destruct e as [value | sent settled message outcome | now vr | now outcome];
    cbn [step].
  - left. reflexivity.
  - destruct (Js.truthy_string (messageText st message)) eqn:Ht.
    + destruct outcome as [data | reason].
      * rewrite (handleSendMessage_resolved _ _ _ _ _ Ht).
        unfold setIsLoading. cbn [sessionId].
        apply (process_session st settled data false
                 (awaiting st sent (messageText st message))).
      * rewrite (handleSendMessage_rejected _ _ _ _ _ Ht). left. reflexivity.
    + rewrite (handleSendMessage_nothing _ _ _ _ _ Ht). left. reflexivity.
  - unfold handleVoiceProcessingResult.
    destruct (Js.truthy_opt_bool (vr_success vr)); cbn [negb];
      [|left; reflexivity].
    cbn [seq fold_left].
    apply (process_session st now (voiceChatResponse vr) true
             (appendMessage _ st)).
  - destruct outcome; left; reflexivity.
Qed.

(** X17: over any sequence of view events, the stored session identifier
    is never an empty string, and once one is stored it is never
    cleared: from a state with a usable identifier every later state has
    a usable one, and from a state with an identifier every later state
    has one. *)
Theorem session_id_never_cleared (events : list Event) (st : ChatState) :
  (sessionIdUsable st -> sessionIdUsable (run events st))
  /\ (sessionId st <> None -> sessionId (run events st) <> None)
  /\ sessionIdUsable (run events initial).
Proof.
  assert (Hstep : forall e st0,
             (sessionIdUsable st0 -> sessionIdUsable (step st0 e))
             /\ (sessionId st0 <> None -> sessionId (step st0 e) <> None)).
  { intros e st0. unfold sessionIdUsable.
    destruct (step_session st0 e) as [-> | [s [Hne ->]]].
    - split; auto.
    - split; intros _; [exact Hne | discriminate]. }
  assert (Hrun : forall es st0,
             (sessionIdUsable st0 -> sessionIdUsable (run es st0))
             /\ (sessionId st0 <> None -> sessionId (run es st0) <> None)).
  { induction es as [|e es IH]; intro st0; [split; auto|].
    cbn [run fold_left]. fold (run es (step st0 e)).
    destruct (Hstep e st0) as [H1 H2].
    destruct (IH (step st0 e)) as [H3 H4]. split; auto. }
  destruct (Hrun events st) as [H1 H2].
  split; [exact H1|]. split; [exact H2|].
  apply (Hrun events initial). exact I.
Qed.

(** Appending a well-answered block to a well-answered log. *)
Lemma noticesAnswered_app (l1 l2 : list Message) :
  noticesAnswered l1 = true -> noticesAnswered l2 = true ->
  noticesAnswered (l1 ++ l2) = true.
Proof.
  induction l1 as [|m rest IH]; intros H1 H2; [exact H2|].
  cbn [noticesAnswered app] in *.
  apply andb_true_iff in H1. destruct H1 as [Hm Hrest].
  apply andb_true_iff. split; [|apply IH; assumption].
  destruct (type_eqb (type m) location_change); [|reflexivity].
  destruct rest as [|m' rest']; [discriminate Hm | exact Hm].
Qed.

(** What the checker means: the entry after a location-change message
    exists and is an assistant message. *)
Lemma noticesAnswered_next (log : list Message) (i : nat) (m : Message) :
  noticesAnswered log = true ->
  nth_error log i = Some m -> type m = location_change ->
  exists m' : Message,
    nth_error log (S i) = Some m' /\ type m' = assistant.
Proof.
  revert i. induction log as [|x rest IH]; intros i Hok Hi Ht;
    [destruct i; discriminate Hi|].
  cbn [noticesAnswered] in Hok. apply andb_true_iff in Hok.
  destruct Hok as [Hx Hrest]. destruct i as [|i].
  - cbn in Hi. injection Hi as ->. rewrite Ht in Hx. cbn in Hx.
    destruct rest as [|m' rest']; [discriminate Hx|].
    exists m'. split; [reflexivity|].
    destruct (type m'); try discriminate Hx. reflexivity.
  - cbn [nth_error] in Hi |- *. apply (IH i Hrest Hi Ht).
Qed.

Lemma replyBlock_answered rendered now r v :
  noticesAnswered (replyBlock rendered now r v) = true.
Proof.
  unfold replyBlock, locationNotice.
  destruct (Js.truthy_opt_bool (success r)); [|reflexivity].
  destruct (location_info r) as [li|]; [|reflexivity].
  destruct (Js.truthy_opt_bool (location_changed li)); reflexivity.
Qed.

Lemma step_answered (st : ChatState) (e : Event) :
  noticesAnswered (messages st) = true ->
  noticesAnswered (messages (step st e)) = true.
Proof.
  intro Hok.
  destruct e as [value | sent settled message outcome | now vr | now outcome];
    cbn [step].
  - exact Hok.
  - rewrite handleSendMessage_log. apply noticesAnswered_app; [exact Hok|].
    destruct (Js.truthy_string (messageText st message)); [|reflexivity].
    destruct (sendMessage_outcome outcome) as [data | why]; [|reflexivity].
    change (noticesAnswered (replyBlock st settled data false) = true).
    apply replyBlock_answered.
  - rewrite handleVoiceProcessingResult_log.
    apply noticesAnswered_app; [exact Hok|].
    destruct (Js.truthy_opt_bool (vr_success vr)); [|reflexivity].
    change (noticesAnswered (replyBlock st now (voiceChatResponse vr) true)
            = true).
    apply replyBlock_answered.
  - destruct outcome as [d | reason]; [reflexivity | exact Hok].
Qed.

(** X18: in the log of every run of the view from its first render, each
    location-change notice is directly followed by an assistant message:
    a notice never ends the log and is never followed by anything but
    the reply it announces. *)
Theorem location_notice_always_answered (events : list Event) :
  noticesAnswered (messages (run events initial)) = true
  /\ forall (i : nat) (m : Message),
       nth_error (messages (run events initial)) i = Some m ->
       type m = location_change ->
       exists m' : Message,
         nth_error (messages (run events initial)) (S i) = Some m'
         /\ type m' = assistant.
Proof.
  cut (noticesAnswered (messages (run events initial)) = true).
  { intro Hok. split; [exact Hok|]. intros i m.
    apply noticesAnswered_next. exact Hok. }
  assert (Hrun : forall es st,
             noticesAnswered (messages st) = true ->
             noticesAnswered (messages (run es st)) = true).
  { induction es as [|e es IH]; intros st Hok; [exact Hok|].
    cbn [run fold_left]. fold (run es (step st e)).
    apply IH. apply step_answered. exact Hok. }
  apply Hrun. reflexivity.
Qed.

(** X19: apart from a successful initial load, every event only appends
    to the log, at most three messages at a time; a successful initial
    load instead replaces whatever the log holds by the welcome message
    alone and caches the loaded weather, and a failed one touches neither
    and reports the fixed initialization error. *)
Theorem log_append_only_except_initial_load (st : ChatState) (e : Event) :
  match e with
  | InitialDataLoaded now (WeatherOk weatherData) =>
    messages (step st e) = [welcomeMessage now]
    /\ currentWeather (step st e) = Some weatherData
  | InitialDataLoaded now (WeatherError reason) =>
    messages (step st e) = messages st
    /\ currentWeather (step st e) = currentWeather st
    /\ chat_error (step st e) = Some "アプリケーションの初期化に失敗しました"
  | _ =>
    exists more : list Message,
      messages (step st e) = (messages st ++ more)%list
      /\ (List.length more <= 3)%nat
  end.
Proof.
  assert (Hblock : forall rendered now r v,
             (List.length (replyBlock rendered now r v) <= 2)%nat).
  { intros. unfold replyBlock, locationNotice.
    destruct (Js.truthy_opt_bool (success r)); [|cbn; lia].
    destruct (location_info r) as [li|]; [|cbn; lia].
    destruct (Js.truthy_opt_bool (location_changed li)); cbn; lia. }
  destruct e as [value | sent settled message outcome | now vr
                 | now [weatherData | reason]]; cbn [step].
  - exists []. split; [symmetry; apply app_nil_r | cbn; lia].
  - rewrite handleSendMessage_log. eexists. split; [reflexivity|].
    destruct (Js.truthy_string (messageText st message)); [|cbn; lia].
    destruct (sendMessage_outcome outcome) as [data | why]; [|cbn; lia].
    cbn [List.length]. pose proof (Hblock st settled data false). lia.
  - rewrite handleVoiceProcessingResult_log. eexists.
    split; [reflexivity|].
    destruct (Js.truthy_opt_bool (vr_success vr)); [|cbn; lia].
    cbn [List.length].
    pose proof (Hblock st now (voiceChatResponse vr) true). lia.
  - split; reflexivity.
  - repeat split.
Qed.

(** *** Voice results *)

(** X20: a voice result whose [success] is falsy only sets the error
    banner and leaves the log alone.  A successful one appends the user
    message carrying the transcript and its voice metadata, then what the
    embedded chat response gives (notice and reply marked as voice
    input, or nothing when that response is unsuccessful), and leaves the
    error banner as it was.  No confidence value, however low, changes
    which messages are appended. *)
Theorem voice_result_handling
    (rendered st : ChatState) (now : Z) (vr : VoiceResult) :
  let st' := handleVoiceProcessingResult rendered now vr st in
  let t := transcription vr in
  if Js.truthy_opt_bool (vr_success vr)
  then messages st'
       = (messages st
          ++ userMessage now (tr_transcript t)
               (Some (mkVoiceMetadata (tr_confidence t)
                        (tr_processing_time t) (tr_word_count t)))
          :: (if Js.truthy_opt_bool (ic_success (chat_response vr))
              then locationNotice now (voiceChatResponse vr)
                   ++ [aiMessage rendered now (voiceChatResponse vr) true]
              else []))%list
       /\ chat_error st' = chat_error st
  else st'
       = setError (Some (Js.or_string (vr_error vr) "音声処理に失敗しました"))
           st
       /\ messages st' = messages st.
Proof.
  intros st' t. subst st' t.
  pose proof (handleVoiceProcessingResult_log rendered now vr st) as Hlog.
  destruct (Js.truthy_opt_bool (vr_success vr)) eqn:Hs.
  - split; [exact Hlog|].
    unfold handleVoiceProcessingResult. rewrite Hs. cbn [negb seq fold_left].
    destruct (Js.truthy_opt_bool (success (voiceChatResponse vr))) eqn:Hc.
    + revert Hc. process_cases rendered (voiceChatResponse vr); intros ->;
        reflexivity.
    + rewrite (process_unsuccessful _ _ _ _ _ Hc). reflexivity.
  - unfold handleVoiceProcessingResult. rewrite Hs. split; reflexivity.
Qed.

(** X21: the hook and the view agree on what was said: when the upload
    settles with a successful result and the view's handler is
    installed, the result the hook hands over is the backend's, and the
    user message the view appends carries exactly the transcript and the
    confidence the hook now shows. *)
Theorem transcript_shown_is_transcript_logged
    (h : Hook.HookState) (st : ChatState) (now : Z) (vr : VoiceResult) :
  Js.truthy_opt_bool (vr_success vr) = true ->
  let settled := Hook.processAudioWithBackend_settle true (Hook.Ok vr) h in
  snd settled = Some vr
  /\ exists more : list Message,
       messages (handleVoiceProcessingResult st now vr st)
       = (messages st
          ++ userMessage now (Hook.transcript (fst settled))
               (Some (mkVoiceMetadata (Hook.confidence (fst settled))
                        (tr_processing_time (transcription vr))
                        (tr_word_count (transcription vr))))
          :: more)%list.
Proof.
  intros Hs settled. subst settled.
  unfold Hook.processAudioWithBackend_settle. rewrite Hs.
  split; [reflexivity|].
  rewrite handleVoiceProcessingResult_log, Hs. eexists. reflexivity.
Qed.

Lemma transcript_shown_is_transcript_logged_witness :
  Hook.transcript
    (fst (Hook.processAudioWithBackend_settle true
            (Hook.Ok VoiceScenarios.mumbled) Scenarios.silent))
  = "東京の天気"
  /\ snd (Hook.processAudioWithBackend_settle true
            (Hook.Ok VoiceScenarios.mumbled) Scenarios.silent)
     = Some VoiceScenarios.mumbled.
Proof.
  split; [reflexivity|].
  apply (transcript_shown_is_transcript_logged Scenarios.silent initial 1500
           VoiceScenarios.mumbled eq_refl).
Defined.

(** *** How the log is displayed *)

(** A property of every message the view builds holds of every message
    of every log. *)
Lemma run_log_forall (P : Message -> Prop) :
  (forall now text vm, P (userMessage now text vm)) ->
  (forall now why, P (errorMessage now why)) ->
  (forall now li, P (locationChangeMessage now li)) ->
  (forall rendered now r v, P (aiMessage rendered now r v)) ->
  (forall now, P (welcomeMessage now)) ->
  forall (events : list Event) (st : ChatState),
    Forall P (messages st) -> Forall P (messages (run events st)).
Proof.
  intros Huser Herror Hnotice Hai Hwelcome.
  assert (Hblock : forall rendered now r v,
             Forall P (replyBlock rendered now r v)).
  { intros. unfold replyBlock, locationNotice.
    destruct (Js.truthy_opt_bool (success r)); [|constructor].
    destruct (location_info r) as [li|]; [|repeat constructor; apply Hai].
    destruct (Js.truthy_opt_bool (location_changed li));
      repeat constructor; auto. }
  induction events as [|e events IH]; intros st Hst; [exact Hst|].
  cbn [run fold_left]. fold (run events (step st e)). apply IH.
  destruct e as [value | sent settled message outcome | now vr
                 | now [weatherData | reason]]; cbn [step].
  - exact Hst.
  - rewrite handleSendMessage_log. apply Forall_app. split; [exact Hst|].
    destruct (Js.truthy_string (messageText st message)); [|constructor].
    constructor; [apply Huser|].
    destruct (sendMessage_outcome outcome) as [data | why];
      [apply Hblock | repeat constructor; apply Herror].
  - rewrite handleVoiceProcessingResult_log.
    apply Forall_app. split; [exact Hst|].
    destruct (Js.truthy_opt_bool (vr_success vr)); [|constructor].
    constructor; [apply Huser | apply Hblock].
  - repeat constructor. apply Hwelcome.
  - exact Hst.
Qed.

(** X22: in every log, a user bubble is blue, a transcribed one
    included: the purple background is keyed on [voice_input], which the
    view only ever sets on assistant messages.  A transcribed user
    message is told apart by the Deepgram badge, which shows exactly when
    the message carries voice metadata and then replaces the
    timestamp. *)
Theorem user_bubbles_always_blue (events : list Event) :
  Forall
    (fun m =>
       bg (getBubbleStyles m) <> "purple.500"
       /\ (type m = user ->
           bg (getBubbleStyles m) = "blue.500"
           /\ showsVoiceBadge m = Js.truthy_opt_obj (voice_metadata m)
           /\ showsTimestamp m = negb (showsVoiceBadge m)))
    (messages (run events initial)).
Proof.
  apply run_log_forall;
    [ intros now text vm | intros now why | intros now li
    | intros rendered now r v | intros now | apply Forall_nil ];
    (split; [discriminate|]); try discriminate.
  intros _. destruct vm; repeat split.
Qed.

(** X23: in every log, the English block is shown under error, location
    change and welcome messages, whose two texts always differ, and
    never under an assistant message, whose two texts are the same
    backend reply, nor under a user message, whose content is plain. *)
Theorem english_block_display (events : list Event) :
  Forall
    (fun m =>
       showsEnglish m
       = match type m with
         | user | assistant => false
         | system | location_change | error => true
         end)
    (messages (run events initial)).
Proof.
  apply run_log_forall;
    [ intros now text vm | intros now why | intros now li
    | intros rendered now r v | intros now | apply Forall_nil ];
    try reflexivity.
  unfold showsEnglish. cbn [aiMessage content type].
  rewrite String.eqb_refl. apply andb_false_r.
Qed.

End ViewFacts.


(** ** The Web Speech hook *)

Module RecognitionFacts.

Import VoiceRecognition.

Lemma append_assoc (a b c : string) : ((a ++ b) ++ c = a ++ (b ++ c))%string.
Proof. induction a as [|x a IH]; cbn; [reflexivity | rewrite IH; reflexivity]. Qed.

Lemma append_nil_r (a : string) : (a ++ "" = a)%string.
Proof. induction a as [|x a IH]; cbn; [reflexivity | rewrite IH; reflexivity]. Qed.

Lemma concat_cons (x : string) (l : list string) :
  String.concat "" (x :: l) = (x ++ String.concat "" l)%string.
Proof.
  destruct l as [|y l]; cbn; [symmetry; apply append_nil_r | reflexivity].
Qed.

(** The loop of [onresult] from given accumulators. *)
Lemma collect_from (results : list SpeechResult) (f i : string) :
  fold_left
    (fun acc r =>
       if isFinal r
       then (fst acc ++ res_transcript r, snd acc)
       else (fst acc, snd acc ++ res_transcript r))
    results (f, i)
  = ((f ++ joined isFinal results)%string,
     (i ++ joined (fun r => negb (isFinal r)) results)%string).
Proof.
  revert f i. induction results as [|r rest IH]; intros f i.
  - cbn. rewrite !append_nil_r. reflexivity.
  - cbn [fold_left fst snd]. unfold joined in *. cbn [filter].
    destruct (isFinal r); cbn [negb map]; rewrite IH, concat_cons,
      append_assoc; reflexivity.
Qed.

(** X24: what [onresult] shows.  The results before [resultIndex] are
    ignored; of the others, the final transcripts are joined in order and
    so are the interim ones; the transcript shown is the joined interim
    text when there is any, and the joined final text otherwise. *)
Theorem onresult_transcript
    (resultIndex : nat) (results : list SpeechResult) (handle : nat)
    (st : RecognitionState) :
  let heardNow := skipn resultIndex results in
  let finals := joined isFinal heardNow in
  let interims := joined (fun r => negb (isFinal r)) heardNow in
  collect resultIndex results = (finals, interims)
  /\ transcript (onresult resultIndex results handle st)
     = (if Js.truthy_string interims then interims else finals)
  /\ isListening (onresult resultIndex results handle st) = isListening st
  /\ calls (onresult resultIndex results handle st) = calls st.
Proof.
  intros heardNow finals interims.
  assert (Hc : collect resultIndex results = (finals, interims)).
  { unfold collect. rewrite collect_from. reflexivity. }
  split; [exact Hc|].
  destruct st as [lis tr sup err ref [t|] tm cl];
    unfold onresult, clearPending; rewrite Hc; cbn;
    try destruct (Nat.eqb t 0); repeat split.
Qed.

(** What the handlers do to the timers. *)
Lemma clearPending_tracked (st : RecognitionState) :
  timerTracked st -> timers (clearPending st) = [].
Proof.
  intros [Hnil | [handle [f [Ht [Href Hne]]]]];
    destruct st as [lis tr sup err ref tref tm cl]; cbn in *; subst.
  - unfold clearPending. cbn. destruct tref as [t|]; [|reflexivity].
    destruct (Nat.eqb t 0); reflexivity.
  - unfold clearPending. cbn.
    destruct (Nat.eqb_spec handle 0) as [Hz | _]; [contradiction|].
    cbn. rewrite Nat.eqb_refl. reflexivity.
Qed.

Lemma onresult_tracked resultIndex results handle st :
  timerTracked st -> handle <> 0%nat ->
  timers (onresult resultIndex results handle st)
  = [(handle, fst (collect resultIndex results))]
  /\ timeoutRef (onresult resultIndex results handle st) = Some handle.
Proof.
  intros Htr Hne. pose proof (clearPending_tracked st Htr) as Hclear.
  unfold onresult. cbn [seq fold_left].
  destruct st as [lis tr sup err ref tref tm cl].
  unfold setTranscript in *. cbn in *. unfold clearPending in *. cbn in *.
  destruct tref as [t|]; cbn in *.
  - destruct (Nat.eqb t 0); cbn in *; rewrite Hclear; split; reflexivity.
  - rewrite Hclear. split; reflexivity.
Qed.

(** Firing the one pending timer. *)
Lemma fireTimer_pending handle f st :
  timers st = [(handle, f)] ->
  timers (fireTimer handle st) = []
  /\ timeoutRef (fireTimer handle st) = timeoutRef st
  /\ calls (fireTimer handle st)
     = (calls st
        ++ (if Js.truthy_string (Js.trim f) then [StopCall] else []))%list.
Proof.
  intro Ht. destruct st as [lis tr sup err ref tref tm cl].
  cbn in Ht. subst tm. unfold fireTimer. cbn [timers].
  assert (Hfind : find (fun t : nat * string => Nat.eqb (fst t) handle)
                    [(handle, f)]
                  = Some (handle, f))
    by (cbn; rewrite Nat.eqb_refl; reflexivity).
  rewrite Hfind. cbn [snd]. unfold autoStop.
  destruct (Js.truthy_string (Js.trim f));
    unfold when, skip, recognition_stop, clearTimeout, setCalls, setTimers;
    cbn [timers timeoutRef calls filter fst];
    rewrite Nat.eqb_refl; cbn [negb]; rewrite ?app_nil_r; repeat split.
Qed.

Lemma fireTimer_tracked handle st :
  timerTracked st -> timerTracked (fireTimer handle st).
Proof.
  intros [Hnil | [h0 [f [Ht [Href Hne]]]]].
  - unfold fireTimer. rewrite Hnil. left. exact Hnil.
  - destruct (Nat.eqb_spec h0 handle) as [-> | Hdiff].
    + left. apply (fireTimer_pending handle f st Ht).
    + unfold fireTimer. rewrite Ht. cbn [find fst].
      apply Nat.eqb_neq in Hdiff. rewrite Hdiff.
      right. exists h0, f. auto.
Qed.

(** X25: in every reachable state of the hook at most one auto-stop
    timer is pending, and it is the one [timeoutRef] names: each result
    cancels the timer of the previous one before setting its own. *)
Theorem at_most_one_timer (st : RecognitionState) :
  Reachable st ->
  timerTracked st /\ (List.length (timers st) <= 1)%nat.
Proof.
  intro Hreach.
  cut (timerTracked st).
  { intros Htr. split; [exact Htr|].
    destruct Htr as [-> | [h0 [f [-> _]]]]; cbn; lia. }
  induction Hreach as [b | st throws _ IH | st _ IH | st _ IH | st _ IH
                       | st i rs handle _ IH Hne | st handle _ IH
                       | st code _ IH | st _ IH].
  - left. destruct b; reflexivity.
  - destruct st as [lis tr sup err ref tref tm cl].
    unfold startListening. cbn. destruct sup, ref, throws; exact IH.
  - destruct st as [lis tr sup err ref tref tm cl].
    unfold stopListening. cbn. destruct ref, lis; exact IH.
  - exact IH.
  - exact IH.
  - destruct (onresult_tracked i rs handle st IH Hne) as [Ht Href].
    right. exists handle, (fst (collect i rs)). auto.
  - apply fireTimer_tracked. exact IH.
  - exact IH.
  - left. apply (clearPending_tracked (setIsListening false st)). exact IH.
Qed.

Lemma at_most_one_timer_witness :
  timers heard = [(7%nat, "こんにちは")] /\ (List.length (timers heard) <= 1)%nat.
Proof.
  split; [reflexivity|].
  apply at_most_one_timer. unfold heard.
  apply reach_onresult; [|discriminate].
  apply reach_onstart. apply reach_start. apply reach_mount.
Defined.

(** X26: the auto-stop.  When the timer set by a result fires, the
    recognition is stopped exactly if the final transcript of that result
    is not blank, and no timer stays pending; and once [onend] has run no
    timer is pending at all, so a timer firing after the end does
    nothing. *)
Theorem auto_stop_behaviour
    (st : RecognitionState) (resultIndex : nat)
    (results : list SpeechResult) (handle : nat) :
  Reachable st -> handle <> 0%nat ->
  let st1 := onresult resultIndex results handle st in
  let finals := joined isFinal (skipn resultIndex results) in
  (calls (fireTimer handle st1)
   = (calls st
      ++ (if Js.truthy_string (Js.trim finals) then [StopCall] else []))%list
   /\ timers (fireTimer handle st1) = [])
  /\ (timers (onend st1) = []
      /\ forall other : nat, fireTimer other (onend st1) = onend st1).
Proof.
  intros Hreach Hne st1 finals.
  destruct (at_most_one_timer st Hreach) as [Htr _].
  destruct (onresult_tracked resultIndex results handle st Htr Hne)
    as [Ht Href].
  destruct (onresult_transcript resultIndex results handle st)
    as [Hc [_ [_ Hcalls]]].
  cbv zeta in Hc. rewrite Hc in Ht. cbn [fst] in Ht.
  fold finals in Ht. fold st1 in Ht, Href, Hcalls.
  assert (Htr1 : timerTracked st1)
    by (right; exists handle, finals; auto).
  split.
  - destruct (fireTimer_pending handle finals st1 Ht) as [Hnone [_ Hfired]].
    rewrite Hfired, Hcalls. split; [reflexivity | exact Hnone].
  - assert (Hend : timers (onend st1) = [])
      by (apply (clearPending_tracked (setIsListening false st1)); exact Htr1).
    split; [exact Hend|].
    intro other. unfold fireTimer. rewrite Hend. reflexivity.
Qed.

Lemma auto_stop_behaviour_witness :
  calls (fireTimer 7 heard) = [StartCall; StopCall]
  /\ timers (fireTimer 7 heard) = [].
Proof.
  assert (Hreach : Reachable (onstart (startListening (mount true initial)
                                         false (mount true initial)))).
  { apply reach_onstart. apply reach_start. apply reach_mount. }
  destruct (auto_stop_behaviour _ 0 [mkResult "こんにちは" true] 7 Hreach
              ltac:(discriminate)) as [[Hcalls Htimers] _].
  split; [|exact Htimers].
  unfold heard. rewrite Hcalls. vm_compute. reflexivity.
Defined.

End RecognitionFacts.
